(** * pysofe: the family of reference maps ([pysofe/meshes/reference_map.py])

    A shallow embedding of [ReferenceMap] and of the part of numpy it is
    written in, followed by the properties of [eval], [eval_inverse],
    [jacobian_inverse] and [jacobian_determinant].

    Modelling decisions, stated once:
    - a numpy array is a shape together with its row-major buffer
      ([ndarray]); every numpy operation the source uses is defined for
      arrays of any rank and raises what numpy raises;
    - floating point numbers are idealised as exact rationals ([Qc], the
      rationals in lowest terms, so that equal numbers are equal terms);
      rounding, infinities and NaN are outside the model, and [1/0] is [0]
      as in [Qc];
    - numpy integers are unbounded ([Z]);
    - Python exceptions are values of [exn]; a call returns [Ok v] or
      [Raise e] ([result]); [assert] statements are enabled;
    - [np.sqrt] is a parameter of [jacobian_determinant], the rationals not
      being closed under square roots. *)

From Stdlib Require Import String DecimalString.
From Stdlib Require Import ZArith QArith Qcanon Lia Bool Arith List.
Import ListNotations.

Set Implicit Arguments.
Close Scope Qc_scope.
Close Scope Q_scope.
Open Scope string_scope.
Open Scope nat_scope.
Open Scope list_scope.

(** ** Exceptions and results *)

Inductive exn : Type :=
| TypeError (msg : string)
| ValueError (msg : string)
| IndexError (msg : string)
| AxisError (msg : string)
| AssertionError
| NotImplementedError (msg : string)
| UnboundLocalError (msg : string)
| LinAlgError (msg : string).

Inductive result (A : Type) : Type :=
| Ok (a : A)
| Raise (e : exn).

Arguments Ok {A} a.
Arguments Raise {A} e.

Definition bind {A B : Type} (m : result A) (k : A -> result B) : result B :=
  match m with
  | Ok a => k a
  | Raise e => Raise e
  end.

Notation "x <- m ;; k" := (bind m (fun x => k))
  (at level 61, m at next level, right associativity).

Definition is_ok {A : Type} (m : result A) : bool :=
  match m with Ok _ => true | Raise _ => false end.

(** Default elements, returned by a read outside the buffer. *)
Class Inhab (A : Type) : Type := inhab : A.
#[export] Instance Inhab_Qc : Inhab Qc := 0%Qc.
#[export] Instance Inhab_Z : Inhab Z := 0%Z.
#[export] Instance Inhab_bool : Inhab bool := false.

Definition show_nat (n : nat) : string :=
  NilZero.string_of_uint (Nat.to_uint n).

(** ** The part of numpy the source uses *)

Module np.

Record ndarray (A : Type) : Type := mk_ndarray {
  shape : list nat;
  data : list A
}.

Definition prod (s : list nat) : nat := fold_right Nat.mul 1 s.

(** [a.size], [a.ndim] *)
Definition size {A} (a : ndarray A) : nat := prod (shape a).
Definition ndim {A} (a : ndarray A) : nat := length (shape a).

(** Row-major position of a multi-index. *)
Fixpoint ravel (s idx : list nat) (acc : nat) : nat :=
  match s, idx with
  | n :: s', i :: idx' => ravel s' idx' (acc * n + i)
  | _, _ => acc
  end.

(** All multi-indices of a shape, in row-major order. *)
Fixpoint indices (s : list nat) : list (list nat) :=
  match s with
  | [] => [[]]
  | n :: s' => flat_map (fun i => map (cons i) (indices s')) (seq 0 n)
  end.

Fixpoint in_range (idx s : list nat) : bool :=
  match idx, s with
  | [], [] => true
  | i :: idx', n :: s' => (i <? n) && in_range idx' s'
  | _, _ => false
  end.

Definition get {A} `{Inhab A} (a : ndarray A) (idx : list nat) : A :=
  nth (ravel (shape a) idx 0) (data a) inhab.

Definition tabulate {A} (s : list nat) (f : list nat -> A) : ndarray A :=
  mk_ndarray s (map f (indices s)).

(** The buffer has as many elements as the shape says. *)
Definition wf {A} (a : ndarray A) : Prop := length (data a) = size a.

(** [np.array([x0, x1, ...])] and [np.array([[...], ...])] *)
Definition array1 {A} (l : list A) : ndarray A := mk_ndarray [length l] l.
Definition array2 {A} (l : list (list A)) : ndarray A :=
  mk_ndarray [length l; length (hd [] l)] (concat l).

(** Elementwise application ([a - 1], [1./a], [np.sqrt(a)], ...). *)
Definition map_nd {A B} `{Inhab A} (f : A -> B) (a : ndarray A) : ndarray B :=
  tabulate (shape a) (fun idx => f (get a idx)).

(** [a.reshape(s)]: the same buffer under another shape. *)
Definition reshape {A} (a : ndarray A) (s : list nat) : ndarray A :=
  mk_ndarray s (data a).

(** [np.atleast_2d(a)] *)
Definition atleast_2d {A} (a : ndarray A) : ndarray A :=
  match shape a with
  | [] => mk_ndarray [1; 1] (data a)
  | [n] => mk_ndarray [1; n] (data a)
  | _ => a
  end.

(** [np.size(a, axis=0)] *)
Definition size_axis0 {A} (a : ndarray A) : result nat :=
  match shape a with
  | [] => Raise (IndexError "tuple index out of range")
  | n :: _ => Ok n
  end.

(** [a.T] *)
Definition transpose {A} `{Inhab A} (a : ndarray A) : ndarray A :=
  tabulate (rev (shape a)) (fun idx => get a (rev idx)).

(** *** Basic indexing: [a[i0, i1, ...]] with [:], [None], an integer
    constant, or a leading [...] *)

Inductive index : Type :=
| Sl                (* [:] *)
| NewAxis           (* [None] *)
| At (k : nat)      (* an integer constant *)
| Ell.              (* [...] *)

Definition consumes (i : index) : nat :=
  match i with Sl | At _ => 1 | NewAxis | Ell => 0 end.

Definition is_ell (i : index) : bool :=
  match i with Ell => true | _ => false end.

(** The shape of the selection and, for each of its multi-indices, the
    multi-index of the array it reads. *)
Fixpoint plan (ixs : list index) (s : list nat)
  : result (list nat * (list nat -> list nat)) :=
  match ixs with
  | [] => Ok (s, fun idx => idx)
  | Sl :: r =>
      match s with
      | n :: s' =>
          p <- plan r s' ;;
          Ok (n :: fst p, fun idx => hd 0 idx :: snd p (tl idx))
      | [] => Raise (IndexError "too many indices for array")
      end
  | NewAxis :: r =>
      p <- plan r s ;;
      Ok (1 :: fst p, fun idx => snd p (tl idx))
  | At k :: r =>
      match s with
      | n :: s' =>
          if k <? n then
            p <- plan r s' ;;
            Ok (fst p, fun idx => k :: snd p idx)
          else Raise (IndexError "index is out of bounds for axis")
      | [] => Raise (IndexError "too many indices for array")
      end
  | Ell :: r =>
      if existsb is_ell r then
        Raise (IndexError "an index can only have a single ellipsis")
      else
        let k := list_sum (map consumes r) in
        if k <=? length s then
          let m := length s - k in
          p <- plan r (skipn m s) ;;
          Ok (firstn m s ++ fst p,
              fun idx => firstn m idx ++ snd p (skipn m idx))
        else Raise (IndexError "too many indices for array")
  end.

Definition getitem {A} `{Inhab A} (ixs : list index) (a : ndarray A)
  : result (ndarray A) :=
  p <- plan ixs (shape a) ;;
  Ok (tabulate (fst p) (fun idx => get a (snd p idx))).

(** *** [a.take(indices, axis=0)], [a.take(k, axis)], [a.compress(cond, axis=0)] *)

(** An index into an axis of length [n]: negative indices count from the
    end, anything outside [-n, n) is out of bounds. *)
Definition wrap (n : nat) (i : Z) : option nat :=
  if ((0 <=? i) && (i <? Z.of_nat n))%Z then Some (Z.to_nat i)
  else if ((- Z.of_nat n <=? i) && (i <? 0))%Z
       then Some (Z.to_nat (i + Z.of_nat n))
       else None.

Definition wrap0 (n : nat) (i : Z) : nat :=
  match wrap n i with Some k => k | None => 0 end.

Definition is_some {A} (o : option A) : bool :=
  match o with Some _ => true | None => false end.

Definition take0 {A} `{Inhab A} (a : ndarray A) (ind : ndarray Z)
  : result (ndarray A) :=
  match shape a with
  | [] => Raise (AxisError "axis 0 is out of bounds for array of dimension 0")
  | n :: rest =>
      if forallb (fun j => is_some (wrap n (get ind j))) (indices (shape ind))
      then Ok (tabulate (shape ind ++ rest)
                 (fun idx => get a (wrap0 n (get ind (firstn (ndim ind) idx))
                                      :: skipn (ndim ind) idx)))
      else Raise (IndexError "index is out of bounds for axis 0")
  end.

Definition take_at {A} `{Inhab A} (a : ndarray A) (k : nat) (axis : nat)
  : result (ndarray A) :=
  if axis <? ndim a then getitem (repeat Sl axis ++ [At k]) a
  else Raise (AxisError "axis is out of bounds for array").

(** Positions of the [True] entries of a one-dimensional condition. *)
Definition nonzero (cond : ndarray bool) : list nat :=
  filter (fun i => get cond [i]) (seq 0 (size cond)).

(** Selection by inclusion along axis 0: the slices whose position carries
    [True]; a [True] past the end of the axis is out of bounds. *)
Definition compress0 {A} `{Inhab A} (a : ndarray A) (cond : ndarray bool)
  : result (ndarray A) :=
  match shape a with
  | [] => Raise (AxisError "axis 0 is out of bounds for array of dimension 0")
  | n :: rest =>
      let sel := nonzero cond in
      if forallb (fun i => i <? n) sel
      then Ok (tabulate (length sel :: rest)
                 (fun idx => get a (nth (hd 0 idx) sel 0 :: tl idx)))
      else Raise (IndexError "index is out of bounds for axis 0")
  end.

(** *** Broadcasting *)

Definition bdim (m n : nat) : option nat :=
  if m =? n then Some m
  else if m =? 1 then Some n
  else if n =? 1 then Some m
  else None.

(** On reversed shapes, so that trailing axes are aligned. *)
Fixpoint bshape_rev (r1 r2 : list nat) : option (list nat) :=
  match r1, r2 with
  | [], r => Some r
  | r, [] => Some r
  | m :: r1', n :: r2' =>
      match bdim m n, bshape_rev r1' r2' with
      | Some d, Some r => Some (d :: r)
      | _, _ => None
      end
  end.

Definition broadcast_shapes (s1 s2 : list nat) : option (list nat) :=
  option_map (@rev nat) (bshape_rev (rev s1) (rev s2)).

(** An axis of length 1 is read at 0 whatever the index of the result. *)
Definition bsel (n i : nat) : nat := if n =? 1 then 0 else i.

Fixpoint bidx_rev (rs ridx : list nat) : list nat :=
  match rs, ridx with
  | n :: rs', i :: ridx' => bsel n i :: bidx_rev rs' ridx'
  | _, _ => []
  end.

(** The multi-index an operand of shape [s] is read at, for the multi-index
    [idx] of the broadcast result. *)
Definition bidx (s idx : list nat) : list nat :=
  rev (bidx_rev (rev s) (rev idx)).

Definition broadcast2 {A B C} `{Inhab A} `{Inhab B}
  (f : A -> B -> C) (a : ndarray A) (b : ndarray B) : result (ndarray C) :=
  match broadcast_shapes (shape a) (shape b) with
  | Some s =>
      Ok (tabulate s (fun idx => f (get a (bidx (shape a) idx))
                                   (get b (bidx (shape b) idx))))
  | None => Raise (ValueError "operands could not be broadcast together")
  end.

Definition mul := broadcast2 Qcmult.
Definition sub := broadcast2 Qcminus.
Definition add := broadcast2 Qcplus.

(** *** Reductions *)

Definition sumQc (l : list Qc) : Qc := fold_right Qcplus 0%Qc l.

Definition norm_axis (nd : nat) (axis : Z) : option nat := wrap nd axis.

(** [a.sum(axis=axis)] *)
Definition sum_axis (a : ndarray Qc) (axis : Z) : result (ndarray Qc) :=
  match norm_axis (ndim a) axis with
  | Some k =>
      let n := nth k (shape a) 0 in
      Ok (tabulate (firstn k (shape a) ++ skipn (S k) (shape a))
            (fun idx => sumQc (map (fun j => get a (firstn k idx ++ j :: skipn k idx))
                                   (seq 0 n))))
  | None => Raise (AxisError "axis is out of bounds for array")
  end.

(** *** [np.dstack([a, b])] *)

Definition atleast_3d {A} (a : ndarray A) : ndarray A :=
  match shape a with
  | [] => mk_ndarray [1; 1; 1] (data a)
  | [n] => mk_ndarray [1; n; 1] (data a)
  | [m; n] => mk_ndarray [m; n; 1] (data a)
  | _ => a
  end.

Fixpoint list_eqb (s t : list nat) : bool :=
  match s, t with
  | [], [] => true
  | m :: s', n :: t' => (m =? n) && list_eqb s' t'
  | _, _ => false
  end.

Definition dstack2 {A} `{Inhab A} (a b : ndarray A) : result (ndarray A) :=
  let a3 := atleast_3d a in
  let b3 := atleast_3d b in
  match shape a3, shape b3 with
  | m :: n :: ka :: ra, m' :: n' :: kb :: rb =>
      if (m =? m') && (n =? n') && list_eqb ra rb then
        Ok (tabulate (m :: n :: (ka + kb) :: ra)
              (fun idx =>
                 let k := nth 2 idx 0 in
                 if k <? ka then get a3 idx
                 else get b3 (firstn 2 idx ++ (k - ka) :: skipn 3 idx)))
      else Raise (ValueError "all the input array dimensions except for the concatenation axis must match exactly")
  | _, _ => Raise (ValueError "all the input arrays must have same number of dimensions")
  end.

(** *** [np.linalg.det], [np.linalg.inv] *)

Definition skip (k x : nat) : nat := if x <? k then x else S x.

Definition minor (i j : nat) (M : nat -> nat -> Qc) : nat -> nat -> Qc :=
  fun r c => M (skip i r) (skip j c).

Definition sign (k : nat) : Qc := if Nat.even k then 1%Qc else (-(1))%Qc.

(** The determinant of the leading [n] x [n] block of [M], by expansion
    along the first row. *)
Fixpoint det (n : nat) (M : nat -> nat -> Qc) : Qc :=
  match n with
  | 0 => 1%Qc
  | S n' =>
      sumQc (map (fun j => Qcmult (Qcmult (sign j) (M 0 j))
                                  (det n' (minor 0 j M)))
                 (seq 0 n))
  end.

Definition is_zero (x : Qc) : bool := (Qnum (this x) =? 0)%Z.

(** The matrix at position [idx] of a stack of matrices. *)
Definition block (a : ndarray Qc) (idx : list nat) : nat -> nat -> Qc :=
  fun i j => get a (idx ++ [i; j]).

Definition linalg_det (a : ndarray Qc) : result (ndarray Qc) :=
  match rev (shape a) with
  | c :: r :: lead =>
      if r =? c then
        Ok (tabulate (rev lead) (fun idx => det r (block a idx)))
      else Raise (LinAlgError "Last 2 dimensions of the array must be square")
  | _ => Raise (LinAlgError "array must be at least two-dimensional")
  end.

(** Entry (i, j) of the inverse of the leading [n] x [n] block of [M]:
    adjugate over determinant. *)
Definition inverse (n : nat) (M : nat -> nat -> Qc) (i j : nat) : Qc :=
  Qcdiv (Qcmult (sign (i + j)) (det (n - 1) (minor j i M))) (det n M).

(** A stack with a singular matrix has no inverse. *)
Definition linalg_inv (a : ndarray Qc) : result (ndarray Qc) :=
  match rev (shape a) with
  | c :: r :: lead =>
      if r =? c then
        if forallb (fun idx => negb (is_zero (det r (block a idx))))
                   (indices (rev lead))
        then
          let m := length lead in
          Ok (tabulate (shape a)
                (fun idx =>
                   inverse r (block a (firstn m idx))
                           (nth m idx 0) (nth (S m) idx 0)))
        else Raise (LinAlgError "Singular matrix")
      else Raise (LinAlgError "Last 2 dimensions of the array must be square")
  | _ => Raise (LinAlgError "array must be at least two-dimensional")
  end.

(** *** Element types *)

Inductive dtype : Type :=
| dt_bool
| dt_int (bits : nat)
| dt_uint (bits : nat)
| dt_float (bits : nat)
| dt_object.

Definition dtype_eqb (d e : dtype) : bool :=
  match d, e with
  | dt_bool, dt_bool => true
  | dt_int m, dt_int n => m =? n
  | dt_uint m, dt_uint n => m =? n
  | dt_float m, dt_float n => m =? n
  | dt_object, dt_object => true
  | _, _ => false
  end.

(** [str(dtype)] *)
Definition dtype_name (d : dtype) : string :=
  match d with
  | dt_bool => "bool"
  | dt_int n => String.append "int" (show_nat n)
  | dt_uint n => String.append "uint" (show_nat n)
  | dt_float n => String.append "float" (show_nat n)
  | dt_object => "object"
  end.

(** The element type numpy names ['int']: the default integer of the
    platform, 64 bits wide on the 64-bit Linux and macOS builds. *)
Definition int_ : dtype := dt_int 64.

(** The element type numpy makes of Python's [bool]. *)
Definition bool_ : dtype := dt_bool.

(** An array of any element type, as a caller may pass for a mask. *)
Inductive any_array : Type :=
| BoolArray (a : ndarray bool)
| IntArray (bits : nat) (a : ndarray Z)
| UIntArray (bits : nat) (a : ndarray Z)
| FloatArray (bits : nat) (a : ndarray Qc)
| ObjectArray (s : list nat).

Definition dtype_of (m : any_array) : dtype :=
  match m with
  | BoolArray _ => dt_bool
  | IntArray n _ => dt_int n
  | UIntArray n _ => dt_uint n
  | FloatArray n _ => dt_float n
  | ObjectArray _ => dt_object
  end.

Definition any_shape (m : any_array) : list nat :=
  match m with
  | BoolArray a => shape a
  | IntArray _ a | UIntArray _ a => shape a
  | FloatArray _ a => shape a
  | ObjectArray s => s
  end.

(** The integer and the boolean view of an array of that kind. *)
Definition ints (m : any_array) : ndarray Z :=
  match m with
  | IntArray _ a | UIntArray _ a => a
  | _ => mk_ndarray [0] []
  end.

Definition bools (m : any_array) : ndarray bool :=
  match m with
  | BoolArray a => a
  | _ => mk_ndarray [0] []
  end.

(** [np.asarray(l)] for a Python list of ints, and of bools; the empty
    list makes an array of floats. *)
Definition asarray_ints (l : list Z) : any_array :=
  match l with
  | [] => FloatArray 64 (array1 [])
  | _ => IntArray 64 (array1 l)
  end.

Definition asarray_bools (l : list bool) : any_array :=
  match l with
  | [] => FloatArray 64 (array1 [])
  | _ => BoolArray (array1 l)
  end.

End np.

Import np.

(** [str(shape)], the way Python prints a tuple of ints. *)
Definition show_shape (s : list nat) : string :=
  match s with
  | [] => "()"
  | [n] => String.append "(" (String.append (show_nat n) ",)")
  | _ => String.append "(" (String.append (String.concat ", " (map show_nat s)) ")")
  end.

(** [s[-2:]] and [s[-1]] on a shape tuple. *)
Definition last2 (s : list nat) : list nat := skipn (length s - 2) s.

Definition last1 (s : list nat) : result nat :=
  match rev s with
  | [] => Raise (IndexError "tuple index out of range")
  | n :: _ => Ok n
  end.

Definition shape_in (s : list nat) (l : list (list nat)) : bool :=
  existsb (list_eqb s) l.

(** ** The collaborators: mesh and shape element *)

(** What [ReferenceMap] reads of a mesh: [mesh.nodes] (one row of
    coordinates per vertex), [mesh.dimension] and
    [mesh.topology.get_entities(d)] (one row of 1-based vertex indices per
    entity of topological dimension [d]). *)
Record Mesh : Type := {
  nodes : ndarray Qc;
  dimension : nat;
  get_entities : nat -> ndarray Z
}.

(** What [ReferenceMap] reads of a shape element: [order] and
    [eval_basis(points, deriv)]. *)
Record ShapeElement : Type := {
  order : nat;
  eval_basis : ndarray Qc -> Z -> result (ndarray Qc)
}.

(** [str(n)] for a Python int. *)
Definition show_Z (z : Z) : string := NilZero.string_of_int (Z.to_int z).

(** Modelled from the spec: the linear Lagrange shape element [P1] of
    [elements/simple/lagrange.py], which [ReferenceMap.__init__] constructs
    and which is not among the sources. For [nD] x [nP] local points it has
    [nD + 1] basis functions, [1 - xi_1 - ... - xi_nD] and [xi_1], ...,
    [xi_nD], in the vertex order of the entities; the values have shape
    nB x nP, the first derivatives nB x nP x nD, the second derivatives
    nB x nP x nD x nD (all zero, the functions being linear). It evaluates
    the orders 0, 1 and 2 only and rejects every other order, and points
    with more rows than its dimension, with a [ValueError], Python's
    invalid-argument error. The spec gives no wording for the error on the
    rows; no property below depends on that wording. *)
Definition P1_eval_basis (dimension : nat) (points : ndarray Qc) (deriv : Z)
  : result (ndarray Qc) :=
  let points := atleast_2d points in
  let nD := nth 0 (shape points) 0 in
  let nP := nth 1 (shape points) 0 in
  let nB := S nD in
  if negb (nD <=? dimension) then
    Raise (ValueError (String.append "Invalid point dimension ("
                         (String.append (show_nat nD) ")")))
  else if (deriv =? 0)%Z then
    Ok (tabulate [nB; nP]
          (fun idx =>
             let p := nth 1 idx 0 in
             match nth 0 idx 0 with
             | 0 => Qcminus 1%Qc
                      (sumQc (map (fun i => get points [i; p]) (seq 0 nD)))
             | S i => get points [i; p]
             end))
  else if (deriv =? 1)%Z then
    Ok (tabulate [nB; nP; nD]
          (fun idx =>
             match nth 0 idx 0 with
             | 0 => Qcopp 1%Qc
             | S i => if i =? nth 2 idx 0 then 1%Qc else 0%Qc
             end))
  else if (deriv =? 2)%Z then
    Ok (tabulate [nB; nP; nD; nD] (fun _ => 0%Qc))
  else
    Raise (ValueError (String.append "Invalid derivation order ("
                         (String.append (show_Z deriv) ")"))).

Definition P1 (dimension : nat) : ShapeElement :=
  {| order := 1; eval_basis := P1_eval_basis dimension |}.

(** ** [class ReferenceMap] *)

Record ReferenceMap : Type := {
  _mesh : Mesh;
  _shape_elem : ShapeElement
}.

(** [ReferenceMap.__init__] *)
Definition ReferenceMap_init (mesh : Mesh) : ReferenceMap :=
  {| _mesh := mesh; _shape_elem := P1 (dimension mesh) |}.

(** The restriction of the entity axis by [mask] in [eval]. *)
Definition apply_mask (coords : ndarray Qc) (mask : option any_array)
  : result (ndarray Qc) :=
  match mask with
  | None => Ok coords
  | Some mask =>
      if negb (length (any_shape mask) =? 1) then Raise AssertionError
      else if dtype_eqb (dtype_of mask) int_ then
        take0 coords (ints mask)
      else if dtype_eqb (dtype_of mask) bool_ then
        compress0 coords (bools mask)
      else
        Raise (TypeError (String.append "Invalue mask type ("
                           (String.append (dtype_name (dtype_of mask)) ")")))
  end.

(** The contraction of the vertex coordinates with the basis, by the
    derivation order. *)
Definition contract (coords basis : ndarray Qc) (deriv : Z)
  : result (ndarray Qc) :=
  if (deriv =? 0)%Z then
    c <- getitem [Sl; Sl; NewAxis; Sl] coords ;;
    b <- getitem [NewAxis; Sl; Sl; NewAxis] basis ;;
    m <- mul c b ;;
    sum_axis m 1
  else if (deriv =? 1)%Z then
    c <- getitem [Sl; Sl; NewAxis; Sl; NewAxis] coords ;;
    b <- getitem [NewAxis; Sl; Sl; NewAxis; Sl] basis ;;
    m <- mul c b ;;
    sum_axis m 1
  else if (deriv =? 2)%Z then
    c <- getitem [Sl; Sl; NewAxis; Sl; NewAxis; NewAxis] coords ;;
    b <- getitem [NewAxis; Sl; Sl; NewAxis; Sl; Sl] basis ;;
    m <- mul c b ;;
    sum_axis m 1
  else
    Raise (UnboundLocalError
             "local variable 'maps' referenced before assignment").

(** [ReferenceMap.eval] *)
Definition eval (rm : ReferenceMap) (points : ndarray Qc) (deriv : Z)
  (mask : option any_array) : result (ndarray Qc) :=
  if size points =? 0 then
    getitem [Sl; NewAxis; Sl] (nodes (_mesh rm))
  else
    let points := atleast_2d points in
    dim <- size_axis0 points ;;
    basis <- eval_basis (_shape_elem rm) points deriv ;;
    let vertices := get_entities (_mesh rm) dim in
    coords <- take0 (nodes (_mesh rm)) (map_nd (fun v => v - 1)%Z vertices) ;;
    coords <- apply_mask coords mask ;;
    contract coords basis deriv.

(** [ReferenceMap.eval_inverse] *)
Definition eval_inverse (rm : ReferenceMap) (points : ndarray Qc)
  (hosts : ndarray Z) : result (ndarray Qc) :=
  dim <- size_axis0 points ;;
  if negb (order (_shape_elem rm) =? 1) then
    Raise (ValueError "Inversion only available for linear reference maps!")
  else if negb ((dimension (_mesh rm) =? 1) || (dimension (_mesh rm) =? 2)) then
    Raise (ValueError "Inversion only available for 1D/2D case")
  else if negb (dim =? dimension (_mesh rm)) then
    Raise AssertionError
  else
    coords <- take0 (nodes (_mesh rm)) (map_nd (fun v => v - 1)%Z hosts) ;;
    p0 <- take_at coords 0 1 ;;
    preimages <-
      (if dim =? 1 then
         c1 <- getitem [Sl; At 1] coords ;;
         c0 <- getitem [Sl; At 0] coords ;;
         P <- sub c1 c0 ;;
         let P_inv := map_nd (fun x => Qcdiv 1%Qc x) P in
         d <- sub (transpose points) p0 ;;
         r <- mul P_inv d ;;
         Ok (atleast_2d r)
       else if dim =? 2 then
         c1 <- getitem [Sl; At 1] coords ;;
         c0 <- getitem [Sl; At 0] coords ;;
         p10 <- sub c1 c0 ;;
         c2 <- getitem [Sl; At 2] coords ;;
         c0 <- getitem [Sl; At 0] coords ;;
         p20 <- sub c2 c0 ;;
         P <- dstack2 p10 p20 ;;
         P_inv <- linalg_inv P ;;
         d <- sub (transpose points) p0 ;;
         d <- getitem [Sl; NewAxis; Sl] d ;;
         m <- mul P_inv d ;;
         sum_axis m (-1)
       else
         Raise (UnboundLocalError
                  "local variable 'preimages' referenced before assignment")) ;;
    Ok (transpose preimages).

(** [ReferenceMap.jacobian_inverse] *)
Definition jacobian_inverse (rm : ReferenceMap) (points : ndarray Qc)
  (mask : option any_array) : result (ndarray Qc) :=
  jacs <- eval rm points 1 mask ;;
  if shape_in (last2 (shape jacs)) [[1; 1]; [2; 2]; [3; 3]] then
    linalg_inv jacs
  else
    n <- last1 (shape jacs) ;;
    if n =? 1 then
      Ok (map_nd (fun x => Qcdiv 1%Qc x) jacs)
    else
      Raise (NotImplementedError "Jacobian inverse not available yet!").

Section Determinant.

(** [np.sqrt] on a number. *)
Variable sqrt : Qc -> Qc.

Definition power2 (a : ndarray Qc) : ndarray Qc :=
  map_nd (fun x => Qcpower x 2) a.

(** [ReferenceMap.jacobian_determinant] *)
Definition jacobian_determinant (rm : ReferenceMap) (points : ndarray Qc)
  (mask : option any_array) : result (ndarray Qc) :=
  jacs <- eval rm points 1 mask ;;
  if shape_in (last2 (shape jacs)) [[1; 1]; [2; 2]; [3; 3]] then
    linalg_det jacs
  else if list_eqb (last2 (shape jacs)) [2; 1] then
    j0 <- getitem [Ell; At 0] jacs ;;
    s <- sum_axis (power2 j0) 2 ;;
    Ok (map_nd sqrt s)
  else if list_eqb (last2 (shape jacs)) [3; 2] then
    j10 <- getitem [Ell; At 1; At 0] jacs ;;
    j21 <- getitem [Ell; At 2; At 1] jacs ;;
    a <- mul j10 j21 ;;
    j20 <- getitem [Ell; At 2; At 0] jacs ;;
    j11 <- getitem [Ell; At 1; At 1] jacs ;;
    b <- mul j20 j11 ;;
    d0 <- sub a b ;;
    let tmp0 := power2 d0 in
    j20 <- getitem [Ell; At 2; At 0] jacs ;;
    j01 <- getitem [Ell; At 0; At 1] jacs ;;
    a <- mul j20 j01 ;;
    j00 <- getitem [Ell; At 0; At 0] jacs ;;
    j21 <- getitem [Ell; At 2; At 1] jacs ;;
    b <- mul j00 j21 ;;
    d1 <- sub a b ;;
    let tmp1 := power2 d1 in
    j00 <- getitem [Ell; At 0; At 0] jacs ;;
    j11 <- getitem [Ell; At 1; At 1] jacs ;;
    a <- mul j00 j11 ;;
    j10 <- getitem [Ell; At 1; At 0] jacs ;;
    j01 <- getitem [Ell; At 0; At 1] jacs ;;
    b <- mul j10 j01 ;;
    d2 <- sub a b ;;
    let tmp2 := power2 d2 in
    t01 <- add tmp0 tmp1 ;;
    t <- add t01 tmp2 ;;
    Ok (map_nd sqrt t)
  else
    Raise (NotImplementedError
             (String.append "Unsupported shape of jacobians! ("
                (String.append (show_shape (shape jacs)) ")"))).

End Determinant.

(** ** The meshes of the examples *)

Definition qc (n : Z) (d : positive) : Qc := Q2Qc (n # d).

(** Nodes [[0.],[1.],[2.]], cells [[1,2],[2,3]]. *)
Definition mesh_1d : Mesh :=
  {| nodes := array2 [[qc 0 1]; [qc 1 1]; [qc 2 1]];
     dimension := 1;
     get_entities := fun d =>
       match d with
       | 0 => array2 [[1]; [2]; [3]]%Z
       | 1 => array2 [[1; 2]; [2; 3]]%Z
       | _ => mk_ndarray [0; S d] []
       end |}.

(** Two triangles on four nodes, with their five edges. *)
Definition mesh_2d : Mesh :=
  {| nodes := array2 [[qc 0 1; qc 0 1]; [qc 2 1; qc 0 1];
                      [qc 0 1; qc 4 1]; [qc 2 1; qc 4 1]];
     dimension := 2;
     get_entities := fun d =>
       match d with
       | 0 => array2 [[1]; [2]; [3]; [4]]%Z
       | 1 => array2 [[1; 2]; [1; 3]; [2; 3]; [2; 4]; [3; 4]]%Z
       | 2 => array2 [[1; 2; 3]; [2; 4; 3]]%Z
       | _ => mk_ndarray [0; S d] []
       end |}.

(** Coordinate [d] of vertex [k] of the host of point [i], the hosts being
    given by their rows of 1-based vertex indices. *)
Definition host_vertex (mesh : Mesh) (hosts : ndarray Z) (i k d : nat) : Qc :=
  get (nodes mesh) [Z.to_nat (get hosts [i; k] - 1); d].

(** The cross product of two vectors of length 3, and the square of the
    Euclidean norm of a vector of length [n]. *)
Definition cross (a b : nat -> Qc) : nat -> Qc :=
  fun i =>
    match i with
    | 0 => Qcminus (Qcmult (a 1) (b 2)) (Qcmult (a 2) (b 1))
    | 1 => Qcminus (Qcmult (a 2) (b 0)) (Qcmult (a 0) (b 2))
    | _ => Qcminus (Qcmult (a 0) (b 1)) (Qcmult (a 1) (b 0))
    end.

Definition norm2 (n : nat) (v : nat -> Qc) : Qc :=
  sumQc (map (fun i => Qcpower (v i) 2) (seq 0 n)).

(** Column [k] of the matrix at [idx] of a stack of matrices. *)
Definition column (a : ndarray Qc) (idx : list nat) (k : nat) : nat -> Qc :=
  fun i => block a idx i k.

(** Coordinate [d] of vertex [b] of entity [e] of topological dimension
    [dim]. *)
Definition element_vertex (mesh : Mesh) (dim e b d : nat) : Qc :=
  get (nodes mesh) [Z.to_nat (get (get_entities mesh dim) [e; b] - 1); d].

(** The matrix of the edge vectors of entity [e]: column [j] is vertex
    [j + 1] minus vertex 0. The entity is non-degenerate when its
    determinant is not zero. *)
Definition edge_matrix (mesh : Mesh) (dim e : nat) : nat -> nat -> Qc :=
  fun i j => Qcminus (element_vertex mesh dim e (S j) i)
                     (element_vertex mesh dim e 0 i).

(** The same for the host of point [i], the hosts being given by their rows
    of vertex indices. *)
Definition host_matrix (mesh : Mesh) (hosts : ndarray Z) (i : nat)
  : nat -> nat -> Qc :=
  fun r c => Qcminus (host_vertex mesh hosts i (S c) r)
                     (host_vertex mesh hosts i 0 r).

(** Entity [e] as the host of each of [nP] points: [nP] times its row of
    vertex indices. *)
Definition hosts_of (mesh : Mesh) (dim e nP : nat) : ndarray Z :=
  tabulate [nP; S dim] (fun idx => get (get_entities mesh dim) [e; nth 1 idx 0]).

(** The values of the linear basis at the [nP] points of [xi], [D] rows of
    local coordinates: [1 - xi_1 - ... - xi_D], then [xi_1], ..., [xi_D]. *)
Definition linear_basis (xi : ndarray Qc) (D nP : nat) : ndarray Qc :=
  tabulate [S D; nP]
    (fun idx =>
       let p := nth 1 idx 0 in
       match nth 0 idx 0 with
       | 0 => Qcminus 1%Qc (sumQc (map (fun i => get xi [i; p]) (seq 0 D)))
       | S i => get xi [i; p]
       end).


(** The array a call returned. *)
Definition returned (r : result (ndarray Qc)) : ndarray Qc :=
  match r with Ok a => a | Raise _ => mk_ndarray [] [] end.

(** A reference map over the mesh of two cells whose shape element claims
    order 2, and a mesh of dimension 3. *)
Definition order2_map : ReferenceMap :=
  {| _mesh := mesh_1d;
     _shape_elem := {| order := 2; eval_basis := P1_eval_basis 1 |} |}.

Definition mesh_3d : Mesh :=
  {| nodes := array2 [[qc 0 1; qc 0 1; qc 0 1]; [qc 1 1; qc 0 1; qc 0 1];
                      [qc 0 1; qc 1 1; qc 0 1]; [qc 0 1; qc 0 1; qc 1 1]];
     dimension := 3;
     get_entities := fun d =>
       match d with
       | 3 => array2 [[1; 2; 3; 4]]%Z
       | _ => mk_ndarray [0; S d] []
       end |}.

(** The numbers of an array as fractions in lowest terms. *)
Definition to_Q (a : ndarray Qc) : ndarray Q := map_nd this a.

Definition result_map {A B} (f : A -> B) (r : result A) : result B :=
  match r with Ok a => Ok (f a) | Raise e => Raise e end.


(** The slices of [a] along axis 0 at the positions [sel], in that order. *)
Definition select {A} `{Inhab A} (a : ndarray A) (sel : list nat) : ndarray A :=
  tabulate (length sel :: tl (shape a))
    (fun idx => get a (nth (hd 0 idx) sel 0 :: tl idx)).

(** The first derivatives of the linear basis: [-1] in every direction for
    the first function, the unit vectors for the others. *)
Definition linear_gradient (D nP : nat) : ndarray Qc :=
  tabulate [S D; nP; D]
    (fun idx =>
       match nth 0 idx 0 with
       | 0 => Qcopp 1%Qc
       | S i => if i =? nth 2 idx 0 then 1%Qc else 0%Qc
       end).

(** The Gram matrix of the [n] rows of [M]: the transpose of [M] times [M]. *)
Definition gram (n : nat) (M : nat -> nat -> Qc) : nat -> nat -> Qc :=
  fun i j => sumQc (map (fun r => Qcmult (M r i) (M r j)) (seq 0 n)).

(** The hosts of [length es] points given by the positions [es] of their
    entities: the rows of vertex indices of these entities. *)
Definition entity_hosts (mesh : Mesh) (dim : nat) (es : list nat) : ndarray Z :=
  tabulate [length es; S dim]
    (fun idx => get (get_entities mesh dim) [nth (nth 0 idx 0) es 0; nth 1 idx 0]).

(** Three nodes on a line with a second cell that names a fourth node. *)
Definition mesh_out_of_range : Mesh :=
  {| nodes := array2 [[qc 0 1]; [qc 1 1]; [qc 2 1]];
     dimension := 1;
     get_entities := fun d =>
       match d with
       | 1 => array2 [[1; 2]; [2; 4]]%Z
       | _ => mk_ndarray [0; S d] []
       end |}.

(** The same three nodes with the cells numbered from 0. *)
Definition mesh_zero_based : Mesh :=
  {| nodes := array2 [[qc 0 1]; [qc 1 1]; [qc 2 1]];
     dimension := 1;
     get_entities := fun d =>
       match d with
       | 1 => array2 [[0; 1]; [1; 2]]%Z
       | _ => mk_ndarray [0; S d] []
       end |}.

(** A triangle whose three vertices lie on one line. *)
Definition mesh_flat : Mesh :=
  {| nodes := array2 [[qc 0 1; qc 0 1]; [qc 1 1; qc 1 1]; [qc 2 1; qc 2 1]];
     dimension := 2;
     get_entities := fun d =>
       match d with
       | 2 => array2 [[1; 2; 3]]%Z
       | _ => mk_ndarray [0; S d] []
       end |}.


(** * Facts about the array model *)

Module np_facts.

Lemma length_indices (s : list nat) : length (indices s) = prod s.
Proof.
  induction s as [|n s IH]; simpl; [reflexivity|].
  rewrite <- IH. generalize 0 as start.
  induction n as [|n IHn]; intros start; simpl; [reflexivity|].
  rewrite length_app, length_map, IHn. reflexivity.
Qed.

Lemma flat_map_seq_blocks (P c n : nat) : forall start,
  flat_map (fun i => seq ((c + i) * P) P) (seq start n)
  = seq ((c + start) * P) (n * P).
Proof.
  induction n as [|n IH]; intros start; simpl; [reflexivity|].
  rewrite IH, seq_app. do 2 f_equal. lia.
Qed.

Lemma ravel_indices (s : list nat) : forall acc,
  map (fun idx => ravel s idx acc) (indices s) = seq (acc * prod s) (prod s).
Proof.
  induction s as [|n s IH]; intros acc; simpl.
  - now rewrite Nat.mul_1_r.
  - rewrite flat_map_concat_map, concat_map, map_map, <- flat_map_concat_map.
    erewrite flat_map_ext.
    2:{ intros i. rewrite map_map. simpl. apply IH. }
    rewrite (flat_map_seq_blocks (prod s) (acc * n) n 0).
    f_equal. lia.
Qed.

Lemma in_range_In (s : list nat) : forall idx,
  in_range idx s = true <-> In idx (indices s).
Proof.
  induction s as [|n s IH]; intros idx; simpl.
  - destruct idx; simpl; split; intros H; try discriminate; auto.
    + destruct H as [H|[]]; discriminate.
  - rewrite in_flat_map. split.
    + destruct idx as [|i idx]; [discriminate|]. simpl.
      rewrite andb_true_iff, Nat.ltb_lt, IH. intros [Hi Hidx].
      exists i. split; [apply in_seq; lia | now apply in_map].
    + intros (i & Hi & Hin). apply in_map_iff in Hin as (idx' & <- & Hin).
      apply in_seq in Hi. simpl.
      rewrite andb_true_iff, Nat.ltb_lt, IH. split; [lia | assumption].
Qed.

Lemma ravel_position (s idx : list nat) :
  in_range idx s = true ->
  ravel s idx 0 < prod s /\ nth (ravel s idx 0) (indices s) [] = idx.
Proof.
  intros H. apply in_range_In in H.
  destruct (In_nth _ _ [] H) as (k & Hk & Hnth).
  rewrite length_indices in Hk.
  assert (E : nth k (map (fun idx => ravel s idx 0) (indices s)) 0 = k).
  { rewrite ravel_indices. simpl. now rewrite seq_nth. }
  rewrite (nth_indep _ 0 (ravel s [] 0)) in E
    by now rewrite length_map, length_indices.
  rewrite (map_nth (fun idx => ravel s idx 0)), Hnth in E.
  rewrite E. split; assumption.
Qed.

Lemma get_tabulate {A} `{Inhab A} (s : list nat) (f : list nat -> A) idx :
  in_range idx s = true -> get (tabulate s f) idx = f idx.
Proof.
  intros Hr. destruct (ravel_position s idx Hr) as [Hlt Hnth].
  unfold get, tabulate; simpl.
  rewrite (nth_indep _ inhab (f [])) by now rewrite length_map, length_indices.
  now rewrite map_nth, Hnth.
Qed.

Lemma tabulate_ext {A} (s : list nat) (f g : list nat -> A) :
  (forall idx, in_range idx s = true -> f idx = g idx) ->
  tabulate s f = tabulate s g.
Proof.
  intros E. unfold tabulate. f_equal.
  apply map_ext_in. intros idx Hin. apply E. now apply in_range_In.
Qed.

Lemma wf_tabulate {A} (s : list nat) (f : list nat -> A) : wf (tabulate s f).
Proof. unfold wf, size; simpl. now rewrite length_map, length_indices. Qed.

Lemma map_nth_seq {A} (d : A) (l : list A) :
  map (fun k => nth k l d) (seq 0 (length l)) = l.
Proof.
  apply (nth_ext _ _ d d).
  - now rewrite length_map, length_seq.
  - intros k Hk. rewrite length_map, length_seq in Hk.
    rewrite (nth_indep _ d (nth 0 l d)) by now rewrite length_map, length_seq.
    rewrite (map_nth (fun k => nth k l d)), seq_nth; auto.
Qed.

Lemma tabulate_get {A} `{Inhab A} (a : ndarray A) :
  wf a -> tabulate (shape a) (get a) = a.
Proof.
  destruct a as [s l]. unfold wf, size, tabulate, get; simpl. intros Hwf.
  f_equal.
  rewrite <- (map_map (fun idx => ravel s idx 0) (fun k => nth k l inhab)).
  rewrite ravel_indices. simpl. rewrite <- Hwf. apply map_nth_seq.
Qed.

(** Two well-formed arrays of one shape with the same elements are equal. *)
Lemma ndarray_ext {A} `{Inhab A} (a b : ndarray A) :
  wf a -> wf b -> shape a = shape b ->
  (forall idx, in_range idx (shape a) = true -> get a idx = get b idx) ->
  a = b.
Proof.
  intros Ha Hb Hs E.
  rewrite <- (tabulate_get Ha), <- (tabulate_get Hb), <- Hs.
  now apply tabulate_ext.
Qed.

Lemma in_range_cons idx n s :
  in_range idx (n :: s) = true ->
  exists i idx', idx = i :: idx' /\ i < n /\ in_range idx' s = true.
Proof.
  destruct idx as [|i idx']; simpl; [discriminate|].
  rewrite andb_true_iff, Nat.ltb_lt. intros [? ?]. now exists i, idx'.
Qed.

Lemma in_range_nil idx : in_range idx [] = true -> idx = [].
Proof. destruct idx; simpl; [reflexivity | discriminate]. Qed.



Lemma in_range_split idx s1 s2 :
  in_range idx (s1 ++ s2) = true ->
  in_range (firstn (length s1) idx) s1 = true
  /\ in_range (skipn (length s1) idx) s2 = true.
Proof.
  revert idx; induction s1 as [|n s1 IH]; intros idx H; simpl in *.
  - now split.
  - apply in_range_cons in H as (i & r & -> & Hi & H). simpl.
    apply Nat.ltb_lt in Hi. rewrite Hi. now apply IH.
Qed.

(** Broadcasting of one axis. *)
Lemma bdim_refl n : bdim n n = Some n.
Proof. unfold bdim. now rewrite Nat.eqb_refl. Qed.

Lemma bdim_1_r n : bdim n 1 = Some n.
Proof. unfold bdim. now destruct (n =? 1). Qed.

Lemma bdim_1_l n : bdim 1 n = Some n.
Proof.
  unfold bdim. destruct (1 =? n) eqn:E; [|reflexivity].
  apply Nat.eqb_eq in E. now subst.
Qed.

Lemma bsel_1 i : bsel 1 i = 0.
Proof. reflexivity. Qed.

Lemma bsel_lt n i : i < n -> bsel n i = i.
Proof.
  unfold bsel. destruct (n =? 1) eqn:E; [|reflexivity].
  apply Nat.eqb_eq in E. lia.
Qed.

Lemma list_eqb_eq s t : list_eqb s t = true <-> s = t.
Proof.
  revert t; induction s as [|m s IH]; intros [|n t]; simpl;
    try (split; (discriminate || reflexivity)).
  rewrite andb_true_iff, Nat.eqb_eq, IH. split.
  - now intros [-> ->].
  - now intros [= -> ->].
Qed.

Lemma list_eqb_refl s : list_eqb s s = true.
Proof. now apply list_eqb_eq. Qed.

Lemma is_zero_spec x : is_zero x = true <-> x = 0%Qc.
Proof.
  unfold is_zero. rewrite Z.eqb_eq. split.
  - intros E. apply Qc_is_canon. unfold Qeq. simpl. rewrite E. reflexivity.
  - intros ->. reflexivity.
Qed.

Lemma is_zero_false x : x <> 0%Qc -> is_zero x = false.
Proof.
  intros Hx. destruct (is_zero x) eqn:E; [|reflexivity].
  now apply is_zero_spec in E.
Qed.

Lemma shape_tabulate {A} s (f : list nat -> A) : shape (tabulate s f) = s.
Proof. reflexivity. Qed.

Lemma get_map_nd {A B} `{Inhab A} `{Inhab B} (f : A -> B) (a : ndarray A) idx :
  in_range idx (shape a) = true -> get (map_nd f a) idx = f (get a idx).
Proof. intros Hr. unfold map_nd. now rewrite get_tabulate. Qed.

(** [take] along axis 0 succeeds when every index is within bounds. *)
Lemma take0_ok {A} `{Inhab A} (a : ndarray A) (ind : ndarray Z) n rest :
  shape a = n :: rest ->
  (forall j, in_range j (shape ind) = true -> wrap n (get ind j) <> None) ->
  take0 a ind =
  Ok (tabulate (shape ind ++ rest)
        (fun idx => get a (wrap0 n (get ind (firstn (ndim ind) idx))
                             :: skipn (ndim ind) idx))).
Proof.
  intros Hs Hok. unfold take0. rewrite Hs.
  replace (forallb _ _) with true; [reflexivity|].
  symmetry. apply forallb_forall. intros j Hj. apply in_range_In in Hj.
  specialize (Hok j Hj). now destruct (wrap n (get ind j)).
Qed.

Lemma wrap_vertex n v :
  (1 <= v <= Z.of_nat n)%Z -> wrap n (v - 1) = Some (Z.to_nat (v - 1)).
Proof.
  intros Hv. unfold wrap.
  replace ((0 <=? v - 1)%Z && (v - 1 <? Z.of_nat n)%Z) with true; [reflexivity|].
  symmetry. apply andb_true_iff. split; [apply Z.leb_le | apply Z.ltb_lt]; lia.
Qed.

Lemma wrap_lt n i k : wrap n i = Some k -> k < n.
Proof.
  unfold wrap.
  destruct ((0 <=? i)%Z && (i <? Z.of_nat n)%Z) eqn:E1.
  - apply andb_true_iff in E1 as [H1 H2].
    apply Z.leb_le in H1. apply Z.ltb_lt in H2. intros [= <-]. lia.
  - destruct ((- Z.of_nat n <=? i)%Z && (i <? 0)%Z) eqn:E2; [|discriminate].
    apply andb_true_iff in E2 as [H1 H2].
    apply Z.leb_le in H1. apply Z.ltb_lt in H2. intros [= <-]. lia.
Qed.

End np_facts.

Import np_facts.

Arguments bdim : simpl never.
Arguments bsel : simpl never.

(** Closes a goal [in_range idx s = true] on explicit lists. *)
Ltac in_range_tac :=
  simpl; rewrite ?andb_true_iff, ?Nat.ltb_lt; repeat split;
  solve [reflexivity | lia | assumption].

(** Names the components of a multi-index known to be in range. *)
Ltac split_range H :=
  repeat
    (let i := fresh "i" in
     let r := fresh "r" in
     let Hi := fresh "Hi" in
     apply in_range_cons in H as (i & r & -> & Hi & H));
  apply in_range_nil in H; subst.

Ltac bsel_tac := rewrite ?bsel_1; rewrite ?bsel_lt by lia.


(** * [eval]: the empty point set, the mask and the derivation order *)

Lemma size_axis0_atleast_2d {A} (a : ndarray A) :
  exists dim, size_axis0 (atleast_2d a) = Ok dim.
Proof.
  unfold size_axis0, atleast_2d.
  destruct (shape a) as [|n [|m s]] eqn:E; simpl; eauto.
  rewrite E. eauto.
Qed.

(** C10: when the point array is empty, [eval] returns the node coordinates
    with a singleton point axis, whatever [deriv] and [mask] are: neither
    the mask nor the derivation order is looked at. *)
Theorem eval_empty_points (rm : ReferenceMap) (points : ndarray Qc)
  (deriv : Z) (mask : option any_array) (N D : nat) :
  size points = 0 ->
  shape (nodes (_mesh rm)) = [N; D] ->
  exists r,
    eval rm points deriv mask = Ok r
    /\ shape r = [N; 1; D]
    /\ (forall i d, i < N -> d < D ->
        get r [i; 0; d] = get (nodes (_mesh rm)) [i; d])
    /\ (wf (nodes (_mesh rm)) -> r = reshape (nodes (_mesh rm)) [N; 1; D]).
Proof.
  intros Hsize Hnodes. unfold eval. rewrite Hsize. simpl.
  unfold getitem. rewrite Hnodes. simpl.
  eexists. split; [reflexivity|]. split; [reflexivity|].
  assert (Hget : forall i d, i < N -> d < D ->
            get (tabulate [N; 1; D]
                   (fun idx => get (nodes (_mesh rm))
                                 (hd 0 idx :: hd 0 (tl (tl idx)) :: tl (tl (tl idx)))))
                [i; 0; d] = get (nodes (_mesh rm)) [i; d]).
  { intros i d Hi Hd. now rewrite get_tabulate by in_range_tac. }
  split; [exact Hget|].
  intros Hwf. apply ndarray_ext.
  - apply wf_tabulate.
  - unfold wf, size, reshape in *. rewrite Hnodes in Hwf. simpl in *. lia.
  - reflexivity.
  - intros idx Hr. simpl in Hr. split_range Hr.
    assert (i0 = 0) by lia. subst i0. rewrite Hget by assumption.
    unfold get, reshape. rewrite Hnodes. simpl. f_equal. lia.
Qed.

Lemma eval_empty_points_witness :
  exists r,
    eval (ReferenceMap_init mesh_1d) (array1 []) 7
         (Some (FloatArray 64 (array2 [[qc 1 2]]))) = Ok r
    /\ shape r = [3; 1; 1]
    /\ (forall i d, i < 3 -> d < 1 ->
        get r [i; 0; d] = get (nodes mesh_1d) [i; d])
    /\ (wf (nodes mesh_1d) -> r = reshape (nodes mesh_1d) [3; 1; 1]).
Proof.
  apply (@eval_empty_points (ReferenceMap_init mesh_1d) (array1 []) 7
           (Some (FloatArray 64 (array2 [[qc 1 2]]))) 3 1); reflexivity.
Defined.

Lemma dtype_eqb_eq (d e : dtype) : dtype_eqb d e = true -> d = e.
Proof.
  destruct d, e; simpl; try discriminate; try reflexivity;
    intros E; apply Nat.eqb_eq in E; now subst.
Qed.

(** The three ways of [apply_mask] on a one-dimensional mask. *)
Lemma apply_mask_int (coords : ndarray Qc) (a : ndarray Z) :
  ndim a = 1 -> apply_mask coords (Some (IntArray 64 a)) = take0 coords a.
Proof. unfold apply_mask, ndim; simpl. now intros ->. Qed.

Lemma apply_mask_bool (coords : ndarray Qc) (a : ndarray bool) :
  ndim a = 1 -> apply_mask coords (Some (BoolArray a)) = compress0 coords a.
Proof. unfold apply_mask, ndim; simpl. now intros ->. Qed.

Lemma apply_mask_other (coords : ndarray Qc) (m : any_array) :
  length (any_shape m) = 1 ->
  dtype_of m <> int_ -> dtype_of m <> bool_ ->
  apply_mask coords (Some m) =
  Raise (TypeError (String.append "Invalue mask type ("
                      (String.append (dtype_name (dtype_of m)) ")"))).
Proof.
  intros Hnd Hint Hbool. unfold apply_mask. rewrite Hnd.
  change (negb (1 =? 1)) with false. cbv iota.
  destruct (dtype_eqb (dtype_of m) int_) eqn:E1.
  { now apply dtype_eqb_eq in E1. }
  destruct (dtype_eqb (dtype_of m) bool_) eqn:E2.
  { now apply dtype_eqb_eq in E2. }
  reflexivity.
Qed.

(** C6: an integer mask whose element type is not the default integer is
    refused. On the mesh of two cells, [eval] at the point 1/2 with the
    mask [np.array([0], dtype=np.int32)] raises the mask type error instead
    of selecting cell 0. *)
Theorem eval_mask_int32_rejected :
  eval (ReferenceMap_init mesh_1d) (array2 [[qc 1 2]]) 0
       (Some (IntArray 32 (array1 [0%Z])))
  = Raise (TypeError "Invalue mask type (int32)").
Proof. vm_compute. reflexivity. Qed.

(** The same mask with the default integer type selects cell 0. *)
Lemma eval_mask_int64_selects :
  result_map to_Q
    (eval (ReferenceMap_init mesh_1d) (array2 [[qc 1 2]]) 0
          (Some (IntArray 64 (array1 [0%Z]))))
  = Ok (mk_ndarray [1; 1; 1] [1 # 2]%Q).
Proof. vm_compute. reflexivity. Qed.

(** Whatever the shape element and the mask, a derivation order other than
    0, 1, 2 gives no result. *)
Lemma contract_unhandled (coords basis : ndarray Qc) (deriv : Z) :
  deriv <> 0%Z -> deriv <> 1%Z -> deriv <> 2%Z ->
  contract coords basis deriv =
  Raise (UnboundLocalError "local variable 'maps' referenced before assignment").
Proof.
  intros H0 H1 H2. unfold contract.
  apply Z.eqb_neq in H0, H1, H2. now rewrite H0, H1, H2.
Qed.

Lemma eval_deriv_no_result (rm : ReferenceMap) (points : ndarray Qc)
  (deriv : Z) (mask : option any_array) :
  size points <> 0 ->
  deriv <> 0%Z -> deriv <> 1%Z -> deriv <> 2%Z ->
  is_ok (eval rm points deriv mask) = false.
Proof.
  intros Hs H0 H1 H2. unfold eval.
  apply Nat.eqb_neq in Hs. rewrite Hs.
  destruct (size_axis0 (atleast_2d points)); simpl; [|reflexivity].
  destruct (eval_basis _ _ _); simpl; [|reflexivity].
  destruct (take0 _ _); simpl; [|reflexivity].
  destruct (apply_mask _ _); simpl; [|reflexivity].
  now rewrite contract_unhandled.
Qed.

Lemma atleast_2d_idem {A} (a : ndarray A) : atleast_2d (atleast_2d a) = atleast_2d a.
Proof.
  assert (Hfix : forall b : ndarray A, 2 <= length (shape b) -> atleast_2d b = b).
  { intros b Hb. unfold atleast_2d.
    destruct (shape b) as [|n [|m s]]; simpl in Hb; try lia. reflexivity. }
  apply Hfix. unfold atleast_2d.
  destruct (shape a) as [|n [|m s]] eqn:E; simpl; try lia.
  rewrite E. simpl. lia.
Qed.

(** The shape element the constructor builds evaluates no order other than
    0, 1 and 2: it raises a [ValueError], which names the order when the
    points have no more rows than its dimension. *)
Lemma P1_rejects_order (dimension : nat) (points : ndarray Qc) (deriv : Z) :
  deriv <> 0%Z -> deriv <> 1%Z -> deriv <> 2%Z ->
  (exists msg, P1_eval_basis dimension points deriv = Raise (ValueError msg))
  /\ (nth 0 (shape (atleast_2d points)) 0 <= dimension ->
      P1_eval_basis dimension points deriv =
      Raise (ValueError (String.append "Invalid derivation order ("
                           (String.append (show_Z deriv) ")")))).
Proof.
  intros H0 H1 H2. apply Z.eqb_neq in H0, H1, H2. unfold P1_eval_basis.
  destruct (nth 0 (shape (atleast_2d points)) 0 <=? dimension) eqn:E; cbn [negb].
  - rewrite H0, H1, H2. split; [eauto | reflexivity].
  - split; [eauto|]. intros Hle. apply Nat.leb_gt in E. lia.
Qed.

(** C9: with a non-empty point array, a call of [eval] with a derivation
    order other than 0, 1, 2 is rejected with a [ValueError], whatever the
    mask: the shape element that [ReferenceMap.__init__] builds refuses the
    order when [eval] asks it for the basis, before the vertices are
    gathered. The message names the order when the points have no more rows
    than the dimension of the mesh. No shape element makes such a call
    return a result. *)
Theorem eval_deriv_rejected (mesh : Mesh) (points : ndarray Qc) (deriv : Z)
  (mask : option any_array) :
  size points <> 0 ->
  deriv <> 0%Z -> deriv <> 1%Z -> deriv <> 2%Z ->
  (exists msg,
     eval (ReferenceMap_init mesh) points deriv mask = Raise (ValueError msg))
  /\ (forall dim,
        size_axis0 (atleast_2d points) = Ok dim -> dim <= dimension mesh ->
        eval (ReferenceMap_init mesh) points deriv mask =
        Raise (ValueError (String.append "Invalid derivation order ("
                             (String.append (show_Z deriv) ")"))))
  /\ (forall rm : ReferenceMap, is_ok (eval rm points deriv mask) = false).
Proof.
  intros Hs H0 H1 H2.
  destruct (@P1_rejects_order (dimension mesh) (atleast_2d points) deriv H0 H1 H2)
    as [[msg Hmsg] Hexact].
  destruct (size_axis0_atleast_2d points) as [d Hd].
  assert (Hev : forall e,
            P1_eval_basis (dimension mesh) (atleast_2d points) deriv = Raise e ->
            eval (ReferenceMap_init mesh) points deriv mask = Raise e).
  { intros e He. unfold eval. apply Nat.eqb_neq in Hs. rewrite Hs, Hd.
    cbn [bind]. simpl eval_basis. now rewrite He. }
  split; [|split].
  - exists msg. now apply Hev.
  - intros dim Hdim Hle. apply Hev, Hexact.
    rewrite atleast_2d_idem. unfold size_axis0 in Hdim.
    destruct (shape (atleast_2d points)); [discriminate|].
    injection Hdim as ->. exact Hle.
  - intros rm. now apply eval_deriv_no_result.
Qed.

(** On the mesh of two cells, the order 3 at the point 1/2. *)
Lemma eval_deriv_rejected_witness :
  eval (ReferenceMap_init mesh_1d) (array2 [[qc 1 2]]) 3 None =
  Raise (ValueError "Invalid derivation order (3)").
Proof.
  apply (proj1 (proj2 (@eval_deriv_rejected mesh_1d (array2 [[qc 1 2]]) 3 None
                         ltac:(discriminate) ltac:(lia) ltac:(lia) ltac:(lia)))
           1 eq_refl).
  simpl. lia.
Defined.

(** * [eval_inverse]: the checks *)

(** C8: [eval_inverse] refuses a shape element whose order is not 1 (with
    the error on the linear reference maps), then a mesh whose dimension is
    neither 1 nor 2 (with the error on the 1D/2D case), then points whose
    number of rows is not the dimension of the mesh (by its assertion); in
    none of these cases does it return a result. *)
Theorem eval_inverse_preconditions (rm : ReferenceMap) (points : ndarray Qc)
  (hosts : ndarray Z) (dim : nat) :
  size_axis0 points = Ok dim ->
  (order (_shape_elem rm) <> 1 ->
   eval_inverse rm points hosts =
   Raise (ValueError "Inversion only available for linear reference maps!"))
  /\ (order (_shape_elem rm) = 1 ->
      dimension (_mesh rm) <> 1 -> dimension (_mesh rm) <> 2 ->
      eval_inverse rm points hosts =
      Raise (ValueError "Inversion only available for 1D/2D case"))
  /\ (order (_shape_elem rm) = 1 ->
      dimension (_mesh rm) = 1 \/ dimension (_mesh rm) = 2 ->
      dim <> dimension (_mesh rm) ->
      eval_inverse rm points hosts = Raise AssertionError)
  /\ (order (_shape_elem rm) <> 1
      \/ (dimension (_mesh rm) <> 1 /\ dimension (_mesh rm) <> 2)
      \/ dim <> dimension (_mesh rm) ->
      is_ok (eval_inverse rm points hosts) = false).
Proof.
  intros Hdim. unfold eval_inverse. rewrite Hdim. cbn [bind].
  split; [|split; [|split]].
  - intros Ho. apply Nat.eqb_neq in Ho. now rewrite Ho.
  - intros Ho H1 H2. rewrite Ho. simpl.
    apply Nat.eqb_neq in H1, H2. now rewrite H1, H2.
  - intros Ho Hd Hne. rewrite Ho. simpl.
    apply Nat.eqb_neq in Hne. rewrite Hne.
    now destruct Hd as [-> | ->].
  - intros H.
    destruct (order (_shape_elem rm) =? 1) eqn:Eo; [|reflexivity].
    cbn [negb].
    destruct ((dimension (_mesh rm) =? 1) || (dimension (_mesh rm) =? 2)) eqn:Ed;
      [|reflexivity].
    cbn [negb].
    destruct (dim =? dimension (_mesh rm)) eqn:Em; [|reflexivity].
    apply Nat.eqb_eq in Eo, Em. apply orb_true_iff in Ed.
    rewrite !Nat.eqb_eq in Ed. lia.
Qed.

Lemma eval_inverse_preconditions_witness :
  eval_inverse order2_map (array2 [[qc 3 4]]) (array2 [[1; 2]]%Z) =
    Raise (ValueError "Inversion only available for linear reference maps!")
  /\ eval_inverse (ReferenceMap_init mesh_3d)
       (array2 [[qc 1 4]; [qc 1 4]; [qc 1 4]]) (array2 [[1; 2; 3; 4]]%Z) =
     Raise (ValueError "Inversion only available for 1D/2D case")
  /\ eval_inverse (ReferenceMap_init mesh_1d)
       (array2 [[qc 1 4]; [qc 1 4]]) (array2 [[1; 2]]%Z) =
     Raise AssertionError.
Proof.
  split; [|split].
  - apply (proj1 (@eval_inverse_preconditions order2_map
                    (array2 [[qc 3 4]]) (array2 [[1; 2]]%Z) 1 eq_refl)).
    simpl. lia.
  - apply (proj1 (proj2 (@eval_inverse_preconditions (ReferenceMap_init mesh_3d)
                    (array2 [[qc 1 4]; [qc 1 4]; [qc 1 4]])
                    (array2 [[1; 2; 3; 4]]%Z) 3 eq_refl)));
      simpl; lia.
  - apply (proj1 (proj2 (proj2 (@eval_inverse_preconditions
                    (ReferenceMap_init mesh_1d)
                    (array2 [[qc 1 4]; [qc 1 4]])
                    (array2 [[1; 2]]%Z) 2 eq_refl))));
      simpl; lia.
Defined.

(** * [eval]: the contraction *)

(** The contraction of [eval] for [deriv = 0], written as the source has it
    (two indexings with [None], a broadcast product and a sum over axis 1),
    is the sum over the basis functions of coordinate times basis value. *)
Lemma contract0_spec (coords basis : ndarray Qc) (nE nB D nP : nat) :
  shape coords = [nE; nB; D] -> shape basis = [nB; nP] ->
  contract coords basis 0 =
  Ok (tabulate [nE; nP; D]
        (fun idx =>
           sumQc (map (fun b => Qcmult (get coords [nth 0 idx 0; b; nth 2 idx 0])
                                       (get basis [b; nth 1 idx 0]))
                      (seq 0 nB)))).
Proof.
  intros Hc Hb. unfold contract. simpl (0 =? 0)%Z. cbv iota.
  unfold getitem. rewrite Hc, Hb. simpl.
  unfold mul, broadcast2. simpl shape. unfold broadcast_shapes. simpl.
  rewrite !bdim_1_r, !bdim_1_l, bdim_refl. simpl.
  unfold sum_axis. simpl.
  f_equal. apply tabulate_ext. intros idx Hr. split_range Hr.
  simpl. f_equal. apply map_ext_in. intros b Hin. apply in_seq in Hin.
  rewrite get_tabulate by in_range_tac.
  unfold bidx. simpl. bsel_tac.
  now rewrite !get_tabulate by in_range_tac.
Qed.

(** The gather of the vertex coordinates: row [b] of entity [e] is the node
    whose index is one less than the stored vertex index. *)
Lemma gather_vertices (nodes : ndarray Qc) (vertices : ndarray Z) (N D nE nB : nat) :
  shape nodes = [N; D] -> shape vertices = [nE; nB] ->
  (forall e b, e < nE -> b < nB -> (1 <= get vertices [e; b] <= Z.of_nat N)%Z) ->
  exists coords,
    take0 nodes (map_nd (fun v => v - 1)%Z vertices) = Ok coords
    /\ shape coords = [nE; nB; D]
    /\ forall e b d, e < nE -> b < nB -> d < D ->
       get coords [e; b; d] = get nodes [Z.to_nat (get vertices [e; b] - 1); d].
Proof.
  intros Hn Hv Hvalid.
  assert (Hw : forall e b, e < nE -> b < nB ->
            wrap N (get (map_nd (fun v => v - 1)%Z vertices) [e; b])
            = Some (Z.to_nat (get vertices [e; b] - 1))).
  { intros e b He Hb. rewrite get_map_nd by (rewrite Hv; in_range_tac).
    apply wrap_vertex. now apply Hvalid. }
  eexists. split; [|split].
  - apply (take0_ok _ _ Hn). intros j Hj. simpl in Hj. rewrite Hv in Hj.
    split_range Hj. now rewrite Hw.
  - simpl. now rewrite Hv.
  - intros e b d He Hb Hd. simpl shape. rewrite Hv.
    rewrite get_tabulate by in_range_tac.
    unfold ndim. simpl shape. rewrite Hv. simpl.
    unfold wrap0. now rewrite Hw.
Qed.

(** [eval] for [deriv = 0] and no mask, entry by entry. *)
Lemma eval_deriv0_closed_form (rm : ReferenceMap) (points basis : ndarray Qc)
  (dim N D nE nB nP : nat) :
  size points <> 0 ->
  size_axis0 (atleast_2d points) = Ok dim ->
  eval_basis (_shape_elem rm) (atleast_2d points) 0 = Ok basis ->
  shape basis = [nB; nP] ->
  shape (nodes (_mesh rm)) = [N; D] ->
  shape (get_entities (_mesh rm) dim) = [nE; nB] ->
  (forall e b, e < nE -> b < nB ->
     (1 <= get (get_entities (_mesh rm) dim) [e; b] <= Z.of_nat N)%Z) ->
  exists maps,
    eval rm points 0 None = Ok maps
    /\ shape maps = [nE; nP; D]
    /\ forall e p d, e < nE -> p < nP -> d < D ->
       get maps [e; p; d] =
       sumQc (map (fun b =>
                     Qcmult (get (nodes (_mesh rm))
                               [Z.to_nat (get (get_entities (_mesh rm) dim) [e; b] - 1); d])
                            (get basis [b; p]))
                  (seq 0 nB)).
Proof.
  intros Hs Hdim Hbasis Hb Hn Hv Hvalid.
  destruct (gather_vertices _ _ Hn Hv Hvalid) as (coords & Htake & Hc & Hget).
  unfold eval. apply Nat.eqb_neq in Hs. rewrite Hs, Hdim. simpl.
  rewrite Hbasis. simpl. rewrite Htake. simpl.
  rewrite (contract0_spec _ _ Hc Hb).
  eexists. split; [reflexivity|]. split; [reflexivity|].
  intros e p d He Hp Hd. rewrite get_tabulate by in_range_tac. simpl.
  f_equal. apply map_ext_in. intros b Hin. apply in_seq in Hin.
  now rewrite Hget by lia.
Qed.

(** C1: for a non-empty point array, [deriv = 0] and no mask, the result of
    [eval] has shape nEntities x nPoints x D and its entry at (e, p, d) is
    the sum over the basis functions b of the d-th coordinate of vertex b
    of entity e (the node with the stored index minus 1) times the b-th
    basis value at point p. *)
Theorem eval_deriv0_contraction (rm : ReferenceMap) (points basis : ndarray Qc)
  (dim N D nE nB nP : nat) :
  size points <> 0 ->
  size_axis0 (atleast_2d points) = Ok dim ->
  eval_basis (_shape_elem rm) (atleast_2d points) 0 = Ok basis ->
  shape basis = [nB; nP] ->
  shape (nodes (_mesh rm)) = [N; D] ->
  shape (get_entities (_mesh rm) dim) = [nE; nB] ->
  (forall e b, e < nE -> b < nB ->
     (1 <= get (get_entities (_mesh rm) dim) [e; b] <= Z.of_nat N)%Z) ->
  exists maps,
    eval rm points 0 None = Ok maps
    /\ shape maps = [nE; nP; D]
    /\ forall e p d, e < nE -> p < nP -> d < D ->
       get maps [e; p; d] =
       sumQc (map (fun b =>
                     Qcmult (get (nodes (_mesh rm))
                               [Z.to_nat (get (get_entities (_mesh rm) dim) [e; b] - 1); d])
                            (get basis [b; p]))
                  (seq 0 nB)).
Proof. exact (@eval_deriv0_closed_form rm points basis dim N D nE nB nP). Qed.

(** The example of the spec: nodes [[0.],[1.],[2.]], cells [[1,2],[2,3]],
    the local point [[0.5]]: global coordinate 1/2 on cell 0 and 3/2 on
    cell 1. *)
Lemma eval_deriv0_contraction_witness :
  exists maps,
    eval (ReferenceMap_init mesh_1d) (array2 [[qc 1 2]]) 0 None = Ok maps
    /\ shape maps = [2; 1; 1]
    /\ get maps [0; 0; 0] = qc 1 2
    /\ get maps [1; 0; 0] = qc 3 2.
Proof.
  destruct (@eval_deriv0_contraction (ReferenceMap_init mesh_1d)
              (array2 [[qc 1 2]])
              (tabulate [2; 1]
                 (fun idx =>
                    match nth 0 idx 0 with
                    | 0 => Qcminus 1%Qc
                             (sumQc (map (fun i => get (array2 [[qc 1 2]])
                                                     [i; nth 1 idx 0])
                                         (seq 0 1)))
                    | S i => get (array2 [[qc 1 2]]) [i; nth 1 idx 0]
                    end))
              1 3 1 2 2 1) as (maps & Hev & Hsh & Hget).
  - vm_compute. discriminate.
  - reflexivity.
  - reflexivity.
  - reflexivity.
  - reflexivity.
  - reflexivity.
  - intros [|[|e]] [|[|b]] He Hb; try lia; vm_compute; split; discriminate.
  - exists maps. split; [exact Hev|]. split; [exact Hsh|].
    split; rewrite Hget by lia; apply Qc_is_canon; vm_compute; reflexivity.
Defined.

Lemma eval_example_1d :
  result_map to_Q (eval (ReferenceMap_init mesh_1d) (array2 [[qc 1 2]]) 0 None)
  = Ok (mk_ndarray [2; 1; 1] [1 # 2; 3 # 2]%Q).
Proof. vm_compute. reflexivity. Qed.

(** * [eval]: integer and boolean masks *)

Lemma get_array1 {A} `{Inhab A} (l : list A) (k : nat) :
  get (array1 l) [k] = nth k l inhab.
Proof. reflexivity. Qed.

Lemma take0_shape {A} `{Inhab A} (a c : ndarray A) (ind : ndarray Z) :
  take0 a ind = Ok c ->
  exists n rest, shape a = n :: rest /\ shape c = shape ind ++ rest.
Proof.
  unfold take0. destruct (shape a) as [|n rest]; [discriminate|].
  destruct (forallb _ _); [|discriminate].
  intros [= <-]. now exists n, rest.
Qed.

Lemma wrap_nonneg (n : nat) (i : Z) :
  (0 <= i < Z.of_nat n)%Z -> wrap n i = Some (Z.to_nat i).
Proof.
  intros Hi. unfold wrap.
  replace ((0 <=? i)%Z && (i <? Z.of_nat n)%Z) with true; [reflexivity|].
  symmetry. apply andb_true_iff. split; [apply Z.leb_le | apply Z.ltb_lt]; lia.
Qed.

(** Selecting by the positions [im] is selecting by the inclusion vector
    [bm] when [im] lists, in order, the positions [bm] marks (negative
    positions counting from the end of the axis). *)
Lemma take0_compress0 {A} `{Inhab A} (a : ndarray A) (n : nat) (rest : list nat)
  (im : list Z) (bm : list bool) :
  shape a = n :: rest ->
  map (wrap n) im = map Some (nonzero (array1 bm)) ->
  take0 a (array1 im) = compress0 a (array1 bm).
Proof.
  intros Hs Hsel. unfold take0, compress0. rewrite Hs.
  set (sel := nonzero (array1 bm)) in *.
  assert (Hlen : length im = length sel).
  { now rewrite <- (length_map (wrap n)), Hsel, length_map. }
  assert (Hnth : forall k, k < length im ->
            wrap n (nth k im 0%Z) = Some (nth k sel 0)).
  { intros k Hk.
    rewrite <- (map_nth (wrap n)), <- (map_nth (@Some nat)), <- Hsel.
    apply nth_indep. now rewrite length_map. }
  replace (forallb (fun j => is_some (wrap n (get (array1 im) j)))
             (indices (shape (array1 im)))) with true.
  2:{ symmetry. apply forallb_forall. intros j Hj. apply in_range_In in Hj.
      simpl in Hj. split_range Hj.
      rewrite get_array1. unfold inhab, Inhab_Z. now rewrite Hnth. }
  replace (forallb (fun i => i <? n) sel) with true.
  2:{ symmetry. apply forallb_forall. intros i Hi.
      destruct (In_nth _ _ 0 Hi) as (k & Hk & <-).
      apply Nat.ltb_lt. apply (wrap_lt n (nth k im 0%Z)).
      apply Hnth. now rewrite Hlen. }
  f_equal. simpl shape. simpl app. rewrite Hlen.
  apply tabulate_ext. intros idx Hr.
  apply in_range_cons in Hr as (k & r & -> & Hk & Hr).
  unfold ndim. simpl. rewrite get_array1. unfold inhab, Inhab_Z, wrap0.
  rewrite Hnth by now rewrite Hlen. reflexivity.
Qed.

Lemma eval_int_bool_mask (rm : ReferenceMap) (points : ndarray Qc) (deriv : Z)
  (im : list Z) (bm : list bool) (dim nE : nat) (vrest : list nat) :
  size_axis0 (atleast_2d points) = Ok dim ->
  shape (get_entities (_mesh rm) dim) = nE :: vrest ->
  map (wrap nE) im = map Some (nonzero (array1 bm)) ->
  eval rm points deriv (Some (IntArray 64 (array1 im)))
  = eval rm points deriv (Some (BoolArray (array1 bm))).
Proof.
  intros Hdim Hv Hsel. unfold eval. destruct (size points =? 0); [reflexivity|].
  rewrite Hdim; cbn [bind].
  destruct (eval_basis _ _ _); cbn [bind]; [|reflexivity].
  destruct (take0 _ _) as [coords|] eqn:Htake; cbn [bind]; [|reflexivity].
  apply take0_shape in Htake as (n & rest & _ & Hc).
  simpl in Hc. rewrite Hv in Hc. simpl in Hc.
  rewrite apply_mask_int, apply_mask_bool by reflexivity.
  now rewrite (take0_compress0 _ _ _ Hc Hsel).
Qed.

(** An integer mask of another width than the default is refused where a
    boolean mask is applied: when the call with a boolean mask returns, the
    call with such an integer mask raises the mask type error. *)
Lemma eval_int_mask_width (rm : ReferenceMap) (points : ndarray Qc) (deriv : Z)
  (w : nat) (a : ndarray Z) (b : ndarray bool) (r : ndarray Qc) :
  size points <> 0 -> w <> 64 -> length (shape a) = 1 ->
  eval rm points deriv (Some (BoolArray b)) = Ok r ->
  eval rm points deriv (Some (IntArray w a)) =
  Raise (TypeError (String.append "Invalue mask type ("
                      (String.append (dtype_name (dt_int w)) ")"))).
Proof.
  intros Hs Hw Ha. unfold eval. apply Nat.eqb_neq in Hs. rewrite Hs.
  destruct (size_axis0 (atleast_2d points)); cbn [bind]; [|discriminate].
  destruct (eval_basis _ _ _); cbn [bind]; [|discriminate].
  destruct (take0 _ _) as [coords|]; cbn [bind]; [|discriminate].
  intros _. rewrite apply_mask_other; [reflexivity | exact Ha | |].
  - simpl. unfold int_. intros [= E]. contradiction.
  - simpl. unfold bool_. discriminate.
Qed.

(** C7: an integer mask and a boolean mask that select the same entities
    in the same order ([im] lists, in order, the positions that [bm] marks
    among the [nE] entities) give the same result of [eval], for every
    point array and derivation order, when the integer mask has the default
    integer type; with an integer mask of any other width the equality
    fails: where the call with the boolean mask returns, the call with the
    integer mask raises the mask type error. *)
Theorem eval_mask_equivalence_by_width (rm : ReferenceMap) (points : ndarray Qc)
  (deriv : Z) (w : nat) (im : list Z) (bm : list bool) (dim nE : nat)
  (vrest : list nat) :
  size_axis0 (atleast_2d points) = Ok dim ->
  shape (get_entities (_mesh rm) dim) = nE :: vrest ->
  map (wrap nE) im = map Some (nonzero (array1 bm)) ->
  (w = 64 ->
   eval rm points deriv (Some (IntArray w (array1 im)))
   = eval rm points deriv (Some (BoolArray (array1 bm))))
  /\ (w <> 64 -> size points <> 0 ->
      forall r, eval rm points deriv (Some (BoolArray (array1 bm))) = Ok r ->
      eval rm points deriv (Some (IntArray w (array1 im))) =
      Raise (TypeError (String.append "Invalue mask type ("
                          (String.append (dtype_name (dt_int w)) ")")))).
Proof.
  intros Hdim Hv Hsel. split.
  - intros ->. exact (@eval_int_bool_mask rm points deriv im bm dim nE vrest
                        Hdim Hv Hsel).
  - intros Hw Hs r Hr.
    exact (@eval_int_mask_width rm points deriv w (array1 im) (array1 bm) r
             Hs Hw eq_refl Hr).
Qed.

(** The example of the spec, on the five edges of the mesh of two
    triangles, with the mask [[0, 2]] as 32-bit integers: the boolean mask
    gives a result, the integer mask the type error. *)
Lemma eval_mask_equivalence_by_width_witness :
  is_ok (eval (ReferenceMap_init mesh_2d) (array2 [[qc 1 2]]) 0
              (Some (asarray_bools [true; false; true]))) = true
  /\ eval (ReferenceMap_init mesh_2d) (array2 [[qc 1 2]]) 0
          (Some (IntArray 32 (array1 [0; 2]%Z)))
     = Raise (TypeError "Invalue mask type (int32)").
Proof.
  split; [vm_compute; reflexivity|].
  apply (proj2 (@eval_mask_equivalence_by_width (ReferenceMap_init mesh_2d)
                  (array2 [[qc 1 2]]) 0 32 [0; 2]%Z [true; false; true] 1 5 [2]
                  eq_refl eq_refl eq_refl)
           ltac:(discriminate) ltac:(discriminate)
           (returned (eval (ReferenceMap_init mesh_2d) (array2 [[qc 1 2]]) 0
                           (Some (asarray_bools [true; false; true]))))).
  reflexivity.
Defined.

(** On every mesh with at least three entities, for every point array and
    derivation order, the masks [[0, 2]] and [[True, False, True]] agree. *)
Lemma eval_mask_0_2 (rm : ReferenceMap) (points : ndarray Qc) (deriv : Z)
  (dim nE : nat) (vrest : list nat) :
  size_axis0 (atleast_2d points) = Ok dim ->
  shape (get_entities (_mesh rm) dim) = nE :: vrest ->
  3 <= nE ->
  eval rm points deriv (Some (asarray_ints [0; 2]%Z))
  = eval rm points deriv (Some (asarray_bools [true; false; true])).
Proof.
  intros Hdim Hv HnE.
  apply (eval_int_bool_mask rm points deriv [0; 2]%Z [true; false; true] Hdim Hv).
  simpl map. rewrite !wrap_nonneg by lia. reflexivity.
Qed.

(** Reads of tabulated arrays, of elementwise images and of broadcast
    operands at explicit multi-indices. *)
Ltac nd_simp :=
  repeat first [ rewrite get_tabulate by in_range_tac
               | rewrite get_map_nd by in_range_tac
               | progress (unfold bidx; simpl; bsel_tac) ].

(** * [eval_inverse]: the closed forms *)

(** C3, as the claim has it: the host of the point 0.75 given by its
    position 0 among the cells. The gather reads [hosts - 1] as node
    indices, so the single index gives a single node and no second vertex:
    the call raises an index error instead of returning 0.75. *)
Lemma eval_inverse_host_position_fails :
  eval_inverse (ReferenceMap_init mesh_1d) (array2 [[qc 3 4]]) (array1 [0%Z])
  = Raise (IndexError "index is out of bounds for axis").
Proof. vm_compute. reflexivity. Qed.

(** [eval_inverse] on a mesh of dimension 1, entry by entry. *)
Lemma eval_inverse_1d_closed_form (rm : ReferenceMap) (points : ndarray Qc)
  (hosts : ndarray Z) (N nP : nat) :
  order (_shape_elem rm) = 1 ->
  dimension (_mesh rm) = 1 ->
  shape (nodes (_mesh rm)) = [N; 1] ->
  shape points = [1; nP] ->
  shape hosts = [nP; 2] ->
  (forall i k, i < nP -> k < 2 -> (1 <= get hosts [i; k] <= Z.of_nat N)%Z) ->
  eval_inverse rm points hosts =
  Ok (tabulate [1; nP]
        (fun idx =>
           let i := nth 1 idx 0 in
           Qcdiv (Qcminus (get points [0; i]) (host_vertex (_mesh rm) hosts i 0 0))
                 (Qcminus (host_vertex (_mesh rm) hosts i 1 0)
                          (host_vertex (_mesh rm) hosts i 0 0)))).
Proof.
  intros Ho Hd Hn Hp Hh Hvalid.
  destruct (gather_vertices _ _ Hn Hh Hvalid) as (coords & Htake & Hc & Hget).
  unfold eval_inverse, size_axis0. rewrite Hp, Ho, Hd. cbn [bind Nat.eqb negb orb].
  rewrite Htake. cbn [bind].
  unfold take_at, ndim, getitem. rewrite Hc. simpl.
  unfold sub, mul, broadcast2, transpose. simpl shape. rewrite Hp.
  unfold broadcast_shapes. simpl. rewrite !bdim_refl. simpl.
  rewrite !bdim_refl. simpl.
  f_equal. apply tabulate_ext. intros idx Hr. split_range Hr.
  assert (i = 0) by lia. subst i.
  unfold atleast_2d. simpl. nd_simp.
  rewrite !Hget by lia. unfold host_vertex, Qcdiv. ring.
Qed.

(** C3, amended: with each host given by its row of 1-based vertex indices,
    [eval_inverse] on a mesh of dimension 1 gathers the vertex coordinates
    of the hosts and returns, for each point, (point - v0) / (v1 - v0), v0
    and v1 being the first and second vertex of its host. *)
Theorem eval_inverse_1d (rm : ReferenceMap) (points : ndarray Qc)
  (hosts : ndarray Z) (N nP : nat) :
  order (_shape_elem rm) = 1 ->
  dimension (_mesh rm) = 1 ->
  shape (nodes (_mesh rm)) = [N; 1] ->
  shape points = [1; nP] ->
  shape hosts = [nP; 2] ->
  (forall i k, i < nP -> k < 2 -> (1 <= get hosts [i; k] <= Z.of_nat N)%Z) ->
  eval_inverse rm points hosts =
  Ok (tabulate [1; nP]
        (fun idx =>
           let i := nth 1 idx 0 in
           Qcdiv (Qcminus (get points [0; i]) (host_vertex (_mesh rm) hosts i 0 0))
                 (Qcminus (host_vertex (_mesh rm) hosts i 1 0)
                          (host_vertex (_mesh rm) hosts i 0 0)))).
Proof. exact (@eval_inverse_1d_closed_form rm points hosts N nP). Qed.

(** The example of the spec with the host given as the cell [[1, 2]]: the
    global point 3/4 has the local coordinate 3/4. *)
Lemma eval_inverse_1d_witness :
  exists r,
    eval_inverse (ReferenceMap_init mesh_1d) (array2 [[qc 3 4]])
                 (array2 [[1; 2]]%Z) = Ok r
    /\ shape r = [1; 1]
    /\ get r [0; 0] = qc 3 4.
Proof.
  eexists. split; [|split].
  - apply (@eval_inverse_1d (ReferenceMap_init mesh_1d) (array2 [[qc 3 4]])
             (array2 [[1; 2]]%Z) 3 1); try reflexivity.
    intros [|i] [|[|k]] Hi Hk; try lia; vm_compute; split; discriminate.
  - reflexivity.
  - apply Qc_is_canon. vm_compute. reflexivity.
Defined.

(** * [jacobian_determinant] *)

Lemma last2_app (lead : list nat) (a b : nat) : last2 (lead ++ [a; b]) = [a; b].
Proof.
  unfold last2. rewrite length_app. simpl.
  replace (length lead + 2 - 2) with (length lead + 0) by lia.
  now rewrite skipn_app, Nat.add_0_r, skipn_all, Nat.sub_diag.
Qed.

(** [det] is the ordinary determinant. *)
Lemma det_1 M : det 1 M = M 0 0.
Proof. simpl. unfold sign. simpl. ring. Qed.

Lemma det_2 M :
  let a := M 0 0 in let b := M 0 1 in
  let c := M 1 0 in let d := M 1 1 in
  det 2 M = (a * d - b * c)%Qc.
Proof. simpl. unfold sign, minor, skip. simpl. ring. Qed.


Section DeterminantFacts.

Variable sqrt : Qc -> Qc.

Lemma jacobian_determinant_square rm points mask jacs lead n :
  eval rm points 1 mask = Ok jacs ->
  shape jacs = lead ++ [n; n] -> n = 1 \/ n = 2 \/ n = 3 ->
  jacobian_determinant sqrt rm points mask =
  Ok (tabulate lead (fun idx => det n (block jacs idx))).
Proof.
  intros Hev Hs Hn. unfold jacobian_determinant. rewrite Hev. cbn [bind].
  rewrite Hs, last2_app.
  replace (shape_in [n; n] [[1; 1]; [2; 2]; [3; 3]]) with true
    by (destruct Hn as [-> | [-> | ->]]; reflexivity).
  unfold linalg_det. rewrite Hs, rev_app_distr. simpl.
  now rewrite Nat.eqb_refl, rev_involutive.
Qed.

Lemma jacobian_determinant_curve rm points mask jacs nE nP :
  eval rm points 1 mask = Ok jacs ->
  shape jacs = [nE; nP; 2; 1] ->
  jacobian_determinant sqrt rm points mask =
  Ok (tabulate [nE; nP] (fun idx => sqrt (norm2 2 (column jacs idx 0)))).
Proof.
  intros Hev Hs. unfold jacobian_determinant. rewrite Hev. cbn [bind].
  rewrite Hs. simpl. unfold getitem. rewrite Hs. simpl.
  unfold sum_axis. simpl. unfold map_nd at 1. simpl.
  f_equal. apply tabulate_ext. intros idx Hr. split_range Hr.
  unfold power2. nd_simp. unfold norm2, column, block. simpl. reflexivity.
Qed.

Lemma jacobian_determinant_surface rm points mask jacs nE nP :
  eval rm points 1 mask = Ok jacs ->
  shape jacs = [nE; nP; 3; 2] ->
  jacobian_determinant sqrt rm points mask =
  Ok (tabulate [nE; nP]
        (fun idx => sqrt (norm2 3 (cross (column jacs idx 0) (column jacs idx 1))))).
Proof.
  intros Hev Hs. unfold jacobian_determinant. rewrite Hev. cbn [bind].
  rewrite Hs. simpl. unfold getitem. rewrite Hs. simpl.
  unfold mul, sub, add, broadcast2, power2, map_nd. simpl.
  unfold broadcast_shapes. simpl.
  repeat (progress (rewrite ?bdim_refl; simpl)).
  f_equal. apply tabulate_ext. intros idx Hr. split_range Hr.
  nd_simp. unfold norm2, cross, column, block. simpl. f_equal. ring.
Qed.

Lemma jacobian_determinant_unsupported rm points mask jacs :
  eval rm points 1 mask = Ok jacs ->
  shape_in (last2 (shape jacs)) [[1; 1]; [2; 2]; [3; 3]; [2; 1]; [3; 2]] = false ->
  jacobian_determinant sqrt rm points mask =
  Raise (NotImplementedError
           (String.append "Unsupported shape of jacobians! ("
              (String.append (show_shape (shape jacs)) ")"))).
Proof.
  intros Hev Hs. unfold jacobian_determinant. rewrite Hev. cbn [bind].
  unfold shape_in in *. cbn [existsb] in *.
  repeat (apply orb_false_iff in Hs as [? Hs]).
  repeat match goal with H : list_eqb _ _ = false |- _ => rewrite H; clear H end.
  reflexivity.
Qed.

(** C4: [jacobian_determinant] chooses by the trailing shape of the tensor
    of Jacobians that [eval] returns: the determinant of each matrix for
    (1,1), (2,2), (3,3); for (2,1), the square root of the sum of the
    squares of the single column; for (3,2), the square root of the squared
    norm of the cross product of the two columns; for every other trailing
    shape, (4,4) among them, the error on the unsupported shape. *)
Theorem jacobian_determinant_dispatch (rm : ReferenceMap) (points : ndarray Qc)
  (mask : option any_array) (jacs : ndarray Qc) :
  eval rm points 1 mask = Ok jacs ->
  (forall lead n,
     shape jacs = lead ++ [n; n] -> n = 1 \/ n = 2 \/ n = 3 ->
     jacobian_determinant sqrt rm points mask =
     Ok (tabulate lead (fun idx => det n (block jacs idx))))
  /\ (forall nE nP,
        shape jacs = [nE; nP; 2; 1] ->
        jacobian_determinant sqrt rm points mask =
        Ok (tabulate [nE; nP] (fun idx => sqrt (norm2 2 (column jacs idx 0)))))
  /\ (forall nE nP,
        shape jacs = [nE; nP; 3; 2] ->
        jacobian_determinant sqrt rm points mask =
        Ok (tabulate [nE; nP]
              (fun idx =>
                 sqrt (norm2 3 (cross (column jacs idx 0) (column jacs idx 1))))))
  /\ (shape_in (last2 (shape jacs))
               [[1; 1]; [2; 2]; [3; 3]; [2; 1]; [3; 2]] = false ->
      jacobian_determinant sqrt rm points mask =
      Raise (NotImplementedError
               (String.append "Unsupported shape of jacobians! ("
                  (String.append (show_shape (shape jacs)) ")"))))
  /\ (forall lead,
        shape jacs = lead ++ [4; 4] ->
        exists msg,
          jacobian_determinant sqrt rm points mask =
          Raise (NotImplementedError msg)).
Proof.
  intros Hev. repeat split.
  - intros lead n. now apply jacobian_determinant_square.
  - intros nE nP. now apply jacobian_determinant_curve.
  - intros nE nP. now apply jacobian_determinant_surface.
  - now apply jacobian_determinant_unsupported.
  - intros lead Hs. eexists. apply jacobian_determinant_unsupported; [exact Hev|].
    now rewrite Hs, last2_app.
Qed.

End DeterminantFacts.

(** On the five edges of the mesh of two triangles the Jacobians have
    trailing shape (2,1); with the identity in the place of the square
    root, the result is the squared length of each edge. *)
Lemma jacobian_determinant_dispatch_witness :
  result_map to_Q
    (jacobian_determinant (fun x => x) (ReferenceMap_init mesh_2d)
       (array2 [[qc 1 2]]) None)
  = Ok (mk_ndarray [5; 1] [4; 16; 20; 16; 4]%Q).
Proof.
  rewrite (proj1 (proj2 (@jacobian_determinant_dispatch (fun x => x)
             (ReferenceMap_init mesh_2d) (array2 [[qc 1 2]]) None
             (returned (eval (ReferenceMap_init mesh_2d)
                             (array2 [[qc 1 2]]) 1 None))
             eq_refl)) 5 1 eq_refl).
  vm_compute. reflexivity.
Defined.

(** * [jacobian_inverse] *)

Lemma last1_app (lead : list nat) (a b : nat) : last1 (lead ++ [a; b]) = Ok b.
Proof. unfold last1. now rewrite rev_app_distr. Qed.


Lemma linalg_inv_ok (a : ndarray Qc) (lead : list nat) (n : nat) :
  shape a = lead ++ [n; n] ->
  (forall idx, in_range idx lead = true -> det n (block a idx) <> 0%Qc) ->
  linalg_inv a =
  Ok (tabulate (lead ++ [n; n])
        (fun idx =>
           inverse n (block a (firstn (length lead) idx))
                   (nth (length lead) idx 0) (nth (S (length lead)) idx 0))).
Proof.
  intros Hs Hdet. unfold linalg_inv. rewrite Hs, rev_app_distr. simpl.
  rewrite Nat.eqb_refl, rev_involutive, length_rev.
  replace (forallb _ _) with true; [reflexivity|].
  symmetry. apply forallb_forall. intros idx Hin. apply in_range_In in Hin.
  now rewrite is_zero_false by now apply Hdet.
Qed.

Lemma linalg_inv_singular (a : ndarray Qc) (lead : list nat) (n : nat) idx :
  shape a = lead ++ [n; n] ->
  in_range idx lead = true -> det n (block a idx) = 0%Qc ->
  linalg_inv a = Raise (LinAlgError "Singular matrix").
Proof.
  intros Hs Hr Hdet. unfold linalg_inv. rewrite Hs, rev_app_distr. simpl.
  rewrite Nat.eqb_refl, rev_involutive.
  replace (forallb _ _) with false; [reflexivity|].
  symmetry. apply not_true_is_false. intros Hall.
  rewrite forallb_forall in Hall. specialize (Hall idx).
  rewrite Hdet in Hall. discriminate Hall. now apply in_range_In.
Qed.

Lemma jacobian_inverse_square rm points mask jacs lead n :
  eval rm points 1 mask = Ok jacs ->
  shape jacs = lead ++ [n; n] -> n = 1 \/ n = 2 \/ n = 3 ->
  jacobian_inverse rm points mask = linalg_inv jacs.
Proof.
  intros Hev Hs Hn. unfold jacobian_inverse. rewrite Hev. cbn [bind].
  rewrite Hs, last2_app.
  replace (shape_in [n; n] [[1; 1]; [2; 2]; [3; 3]]) with true
    by (destruct Hn as [-> | [-> | ->]]; reflexivity).
  reflexivity.
Qed.



Lemma jacobian_inverse_not_implemented rm points mask jacs lead r c :
  eval rm points 1 mask = Ok jacs ->
  shape jacs = lead ++ [r; c] ->
  shape_in [r; c] [[1; 1]; [2; 2]; [3; 3]] = false -> c <> 1 ->
  jacobian_inverse rm points mask =
  Raise (NotImplementedError "Jacobian inverse not available yet!").
Proof.
  intros Hev Hs Hsq Hc. unfold jacobian_inverse. rewrite Hev. cbn [bind].
  rewrite Hs, last2_app, Hsq, last1_app. cbn [bind].
  apply Nat.eqb_neq in Hc. now rewrite Hc.
Qed.

Lemma shape_in_nonsquare r c :
  r <> c -> shape_in [r; c] [[1; 1]; [2; 2]; [3; 3]] = false.
Proof.
  intros Hrc. unfold shape_in. simpl.
  destruct (r =? 1) eqn:E1, (r =? 2) eqn:E2, (r =? 3) eqn:E3,
           (c =? 1) eqn:F1, (c =? 2) eqn:F2, (c =? 3) eqn:F3;
    try reflexivity;
    rewrite ?Nat.eqb_eq in *; lia.
Qed.





(** * [eval_inverse] after [eval] *)

Lemma atleast_2d_2d {A} (a : ndarray A) m n : shape a = [m; n] -> atleast_2d a = a.
Proof. intros Hs. unfold atleast_2d. now rewrite Hs. Qed.

Lemma tabulate_eq {A} `{Inhab A} (a : ndarray A) s f :
  wf a -> shape a = s ->
  (forall idx, in_range idx s = true -> f idx = get a idx) ->
  tabulate s f = a.
Proof.
  intros Hwf Hs E. rewrite <- (@tabulate_get _ _ a Hwf), Hs. now apply tabulate_ext.
Qed.

(** The shape element of [ReferenceMap.__init__] has the linear basis. *)
Lemma P1_basis_values (dimension : nat) (xi : ndarray Qc) (D nP : nat) :
  shape xi = [D; nP] -> D <= dimension ->
  P1_eval_basis dimension xi 0 = Ok (linear_basis xi D nP).
Proof.
  intros Hs Hle. unfold P1_eval_basis. rewrite (@atleast_2d_2d _ xi D nP Hs), Hs.
  apply Nat.leb_le in Hle. simpl nth. rewrite Hle. reflexivity.
Qed.

Lemma get_atleast_3d {A} `{Inhab A} (a : ndarray A) m n i j :
  shape a = [m; n] -> get (atleast_3d a) [i; j; 0] = get a [i; j].
Proof.
  intros Hs. unfold get, atleast_3d. rewrite Hs. simpl. f_equal. lia.
Qed.

Lemma skip_lt k x n : x < n -> skip k x < S n.
Proof. unfold skip. destruct (x <? k); lia. Qed.

Lemma sumQc_ext (f g : nat -> Qc) (n : nat) :
  (forall k, k < n -> f k = g k) ->
  sumQc (map f (seq 0 n)) = sumQc (map g (seq 0 n)).
Proof.
  intros E. f_equal. apply map_ext_in. intros k Hk. apply in_seq in Hk.
  apply E. lia.
Qed.

(** The determinant and the inverse read the leading block only. *)
Lemma det_ext (n : nat) : forall M M' : nat -> nat -> Qc,
  (forall r c, r < n -> c < n -> M r c = M' r c) -> det n M = det n M'.
Proof.
  induction n as [|n IH]; intros M M' E; [reflexivity|].
  cbn [det]. apply sumQc_ext. intros j Hj.
  rewrite (E 0 j) by lia. f_equal. apply IH.
  intros r c Hr Hc. unfold minor. apply E; [|now apply skip_lt].
  unfold skip. simpl. lia.
Qed.

Lemma inverse_ext (n : nat) (M M' : nat -> nat -> Qc) (i j : nat) :
  (forall r c, r < n -> c < n -> M r c = M' r c) -> i < n -> j < n ->
  inverse n M i j = inverse n M' i j.
Proof.
  intros E Hi Hj. unfold inverse. rewrite (@det_ext n M M' E). f_equal. f_equal.
  destruct n as [|n]; [lia|]. simpl. rewrite Nat.sub_0_r.
  apply det_ext. intros r c Hr Hc. unfold minor.
  apply E; now apply skip_lt.
Qed.

(** [eval_inverse] on a mesh of dimension 2, entry by entry: the inverse of
    the matrix of the edge vectors of the host, applied to point minus first
    vertex. *)
Lemma eval_inverse_2d_closed_form (rm : ReferenceMap) (points : ndarray Qc)
  (hosts : ndarray Z) (N nP : nat) :
  order (_shape_elem rm) = 1 ->
  dimension (_mesh rm) = 2 ->
  shape (nodes (_mesh rm)) = [N; 2] ->
  shape points = [2; nP] ->
  shape hosts = [nP; 3] ->
  (forall i k, i < nP -> k < 3 -> (1 <= get hosts [i; k] <= Z.of_nat N)%Z) ->
  (forall i, i < nP -> det 2 (host_matrix (_mesh rm) hosts i) <> 0%Qc) ->
  eval_inverse rm points hosts =
  Ok (tabulate [2; nP]
        (fun idx =>
           let j := nth 0 idx 0 in
           let i := nth 1 idx 0 in
           sumQc (map (fun k =>
                         Qcmult (inverse 2 (host_matrix (_mesh rm) hosts i) j k)
                                (Qcminus (get points [k; i])
                                         (host_vertex (_mesh rm) hosts i 0 k)))
                      (seq 0 2)))).
Proof.
  intros Ho Hd Hn Hp Hh Hvalid Hdet.
  destruct (@gather_vertices (nodes (_mesh rm)) hosts N 2 nP 3 Hn Hh Hvalid)
    as (coords & Htake & Hc & Hget).
  unfold eval_inverse, size_axis0. rewrite Hp, Ho, Hd. cbn [bind Nat.eqb negb orb].
  rewrite Htake. cbn [bind].
  unfold take_at, ndim, getitem. rewrite Hc. simpl.
  unfold sub, mul, broadcast2, transpose. simpl shape. rewrite Hp.
  unfold broadcast_shapes. simpl. rewrite !bdim_refl. simpl.
  unfold dstack2. simpl.
  rewrite !Nat.eqb_refl. simpl.
  match goal with |- context [linalg_inv ?a] => set (P := a) end.
  assert (HP : forall i r c, i < nP -> r < 2 -> c < 2 ->
            get P [i; r; c] = host_matrix (_mesh rm) hosts i r c).
  { intros i r c Hi Hr Hcc. subst P. rewrite get_tabulate by in_range_tac.
    unfold host_matrix, host_vertex.
    destruct c as [|[|c]]; try lia; simpl;
      rewrite (@get_atleast_3d _ _ _ nP 2) by reflexivity;
      nd_simp; now rewrite !Hget by lia. }
  rewrite (@linalg_inv_ok P [nP] 2 eq_refl).
  2:{ intros idx Hr. split_range Hr.
      rewrite (@det_ext 2 (block P [i]) (host_matrix (_mesh rm) hosts i)).
      - now apply Hdet.
      - intros r c Hr Hcc. unfold block. simpl. now apply HP. }
  cbn [bind]. simpl shape. simpl.
  repeat (progress (rewrite ?bdim_refl, ?bdim_1_r; simpl)).
  unfold sum_axis. simpl.
  f_equal. apply tabulate_ext. intros idx Hr. split_range Hr.
  simpl. nd_simp. rewrite !Hget by lia.
  assert (E : forall r c, r < 2 -> c < 2 ->
            block P [i0] r c = host_matrix (_mesh rm) hosts i0 r c).
  { intros r c Hr Hcc. unfold block. simpl. now apply HP. }
  rewrite !(@inverse_ext 2 (block P [i0]) (host_matrix (_mesh rm) hosts i0))
    by (assumption || lia).
  reflexivity.
Qed.

Section RoundTrip.

Variable rm : ReferenceMap.
Variable xi : ndarray Qc.
Variables e N nE nP : nat.

Let mesh := _mesh rm.

Hypothesis Horder : order (_shape_elem rm) = 1.
Hypothesis Hwf : wf xi.
Hypothesis HnP : nP <> 0.
Hypothesis He : e < nE.

Lemma getitem_entity (maps : ndarray Qc) (D : nat) :
  shape maps = [nE; nP; D] ->
  getitem [At e] maps = Ok (tabulate [nP; D] (fun idx => get maps (e :: idx))).
Proof.
  intros Hsh. unfold getitem. rewrite Hsh. simpl.
  apply Nat.ltb_lt in He. now rewrite He.
Qed.

Lemma roundtrip_1d :
  dimension mesh = 1 ->
  shape (nodes mesh) = [N; 1] ->
  shape (get_entities mesh 1) = [nE; 2] ->
  (forall e b, e < nE -> b < 2 ->
     (1 <= get (get_entities mesh 1) [e; b] <= Z.of_nat N)%Z) ->
  shape xi = [1; nP] ->
  eval_basis (_shape_elem rm) xi 0 = Ok (linear_basis xi 1 nP) ->
  det 1 (edge_matrix mesh 1 e) <> 0%Qc ->
  exists maps x,
    eval rm xi 0 None = Ok maps
    /\ getitem [At e] maps = Ok x
    /\ eval_inverse rm (transpose x) (hosts_of mesh 1 e nP) = Ok xi.
Proof.
  intros Hdim Hn Hv Hvalid Hxi Hbasis Hdet.
  destruct (@eval_deriv0_closed_form rm xi (linear_basis xi 1 nP)
              1 N 1 nE 2 nP) as (maps & Hev & Hsh & Hget);
    try assumption; try reflexivity.
  { unfold size. rewrite Hxi. simpl. lia. }
  { rewrite (@atleast_2d_2d _ xi 1 nP Hxi). unfold size_axis0. now rewrite Hxi. }
  { now rewrite (@atleast_2d_2d _ xi 1 nP Hxi). }
  exists maps. eexists. split; [exact Hev|].
  split; [exact (@getitem_entity maps 1 Hsh)|].
  rewrite (@eval_inverse_1d_closed_form rm _ (hosts_of mesh 1 e nP) N nP);
    try assumption; try reflexivity.
  2:{ intros i k Hi Hk. unfold hosts_of. rewrite get_tabulate by in_range_tac.
      simpl. now apply Hvalid. }
  f_equal. apply tabulate_eq; try assumption.
  intros idx Hr. split_range Hr. assert (i = 0) by lia. subst i.
  simpl. unfold transpose. simpl. nd_simp. rewrite Hget by lia.
  unfold host_vertex, hosts_of, linear_basis. nd_simp.
  rewrite det_1 in Hdet. unfold edge_matrix, element_vertex in Hdet.
  fold mesh. field. exact Hdet.
Qed.

Lemma roundtrip_2d :
  dimension mesh = 2 ->
  shape (nodes mesh) = [N; 2] ->
  shape (get_entities mesh 2) = [nE; 3] ->
  (forall e b, e < nE -> b < 3 ->
     (1 <= get (get_entities mesh 2) [e; b] <= Z.of_nat N)%Z) ->
  shape xi = [2; nP] ->
  eval_basis (_shape_elem rm) xi 0 = Ok (linear_basis xi 2 nP) ->
  det 2 (edge_matrix mesh 2 e) <> 0%Qc ->
  exists maps x,
    eval rm xi 0 None = Ok maps
    /\ getitem [At e] maps = Ok x
    /\ eval_inverse rm (transpose x) (hosts_of mesh 2 e nP) = Ok xi.
Proof.
  intros Hdim Hn Hv Hvalid Hxi Hbasis Hdet.
  destruct (@eval_deriv0_closed_form rm xi (linear_basis xi 2 nP)
              2 N 2 nE 3 nP) as (maps & Hev & Hsh & Hget);
    try assumption; try reflexivity.
  { unfold size. rewrite Hxi. simpl. lia. }
  { rewrite (@atleast_2d_2d _ xi 2 nP Hxi). unfold size_axis0. now rewrite Hxi. }
  { now rewrite (@atleast_2d_2d _ xi 2 nP Hxi). }
  exists maps. eexists. split; [exact Hev|].
  split; [exact (@getitem_entity maps 2 Hsh)|].
  assert (HM : forall i r c, i < nP -> r < 2 -> c < 2 ->
            host_matrix mesh (hosts_of mesh 2 e nP) i r c = edge_matrix mesh 2 e r c).
  { intros i r c Hi Hr Hc. unfold host_matrix, host_vertex, hosts_of, edge_matrix,
      element_vertex. now nd_simp. }
  rewrite (@eval_inverse_2d_closed_form rm _ (hosts_of mesh 2 e nP) N nP);
    try assumption; try reflexivity.
  2:{ intros i k Hi Hk. unfold hosts_of. rewrite get_tabulate by in_range_tac.
      simpl. now apply Hvalid. }
  2:{ intros i Hi. fold mesh.
      rewrite (@det_ext 2 _ (edge_matrix mesh 2 e)); [assumption|].
      intros r c Hr Hc. now apply HM. }
  f_equal. apply tabulate_eq; try assumption.
  intros idx Hr. split_range Hr.
  simpl. fold mesh.
  rewrite !(@inverse_ext 2 (host_matrix mesh (hosts_of mesh 2 e nP) i0)
              (edge_matrix mesh 2 e)) by (auto || lia).
  unfold transpose. simpl. nd_simp. rewrite !Hget by lia.
  unfold host_vertex, hosts_of, linear_basis. nd_simp.
  unfold inverse. rewrite det_2 in *.
  unfold edge_matrix, element_vertex in *. fold mesh.
  destruct i as [|[|i]]; try lia; simpl; unfold sign, minor, skip; simpl;
    field; exact Hdet.
Qed.

End RoundTrip.

(** C2: on a mesh of dimension 1 or 2 whose shape element has the linear
    basis, for every non-degenerate entity [e] and every array [xi] of
    local points, evaluating the map, keeping the values on [e] and
    inverting them with [e] as host of every point gives back [xi]. *)
Theorem eval_inverse_eval (rm : ReferenceMap) (xi : ndarray Qc)
  (e N D nE nP : nat) :
  D = 1 \/ D = 2 ->
  order (_shape_elem rm) = 1 ->
  dimension (_mesh rm) = D ->
  shape (nodes (_mesh rm)) = [N; D] ->
  shape (get_entities (_mesh rm) D) = [nE; S D] ->
  (forall e b, e < nE -> b < S D ->
     (1 <= get (get_entities (_mesh rm) D) [e; b] <= Z.of_nat N)%Z) ->
  wf xi -> shape xi = [D; nP] -> nP <> 0 ->
  eval_basis (_shape_elem rm) xi 0 = Ok (linear_basis xi D nP) ->
  e < nE ->
  det D (edge_matrix (_mesh rm) D e) <> 0%Qc ->
  exists maps x,
    eval rm xi 0 None = Ok maps
    /\ getitem [At e] maps = Ok x
    /\ eval_inverse rm (transpose x) (hosts_of (_mesh rm) D e nP) = Ok xi.
Proof.
  intros [-> | ->] Ho Hdim Hn Hv Hvalid Hwf Hxi HnP Hbasis He Hdet.
  - now apply (@roundtrip_1d rm xi e N nE nP).
  - now apply (@roundtrip_2d rm xi e N nE nP).
Qed.

(** The second triangle of the mesh of two triangles, at the local point
    (1/2, 1/3). *)
Lemma eval_inverse_eval_witness :
  exists maps x,
    eval (ReferenceMap_init mesh_2d) (array2 [[qc 1 2]; [qc 1 3]]) 0 None = Ok maps
    /\ getitem [At 1] maps = Ok x
    /\ eval_inverse (ReferenceMap_init mesh_2d) (transpose x)
         (hosts_of mesh_2d 2 1 1) = Ok (array2 [[qc 1 2]; [qc 1 3]]).
Proof.
  apply (@eval_inverse_eval (ReferenceMap_init mesh_2d)
           (array2 [[qc 1 2]; [qc 1 3]]) 1 4 2 2 1); try reflexivity.
  - now right.
  - intros [|[|e]] [|[|[|b]]] He Hb; try lia; vm_compute; split; discriminate.
  - discriminate.
  - lia.
  - intros H. apply (f_equal (fun q => Qnum (this q))) in H.
    vm_compute in H. discriminate.
Defined.

(** * Further properties of [eval]: the derivatives, the masks, the gather *)

Lemma contract1_spec (coords basis : ndarray Qc) (nE nB D nP Dl : nat) :
  shape coords = [nE; nB; D] -> shape basis = [nB; nP; Dl] ->
  contract coords basis 1 =
  Ok (tabulate [nE; nP; D; Dl]
        (fun idx =>
           sumQc (map (fun b => Qcmult (get coords [nth 0 idx 0; b; nth 2 idx 0])
                                       (get basis [b; nth 1 idx 0; nth 3 idx 0]))
                      (seq 0 nB)))).
Proof.
  intros Hc Hb. unfold contract. simpl (1 =? 0)%Z. simpl (1 =? 1)%Z. cbv iota.
  unfold getitem. rewrite Hc, Hb. simpl.
  unfold mul, broadcast2. simpl shape. unfold broadcast_shapes. simpl.
  rewrite !bdim_1_r, !bdim_1_l, bdim_refl. simpl.
  unfold sum_axis. simpl.
  f_equal. apply tabulate_ext. intros idx Hr. split_range Hr.
  simpl. f_equal. apply map_ext_in. intros b Hin. apply in_seq in Hin.
  rewrite get_tabulate by in_range_tac.
  unfold bidx. simpl. bsel_tac.
  now rewrite !get_tabulate by in_range_tac.
Qed.

Lemma contract2_spec (coords basis : ndarray Qc) (nE nB D nP Dl Dm : nat) :
  shape coords = [nE; nB; D] -> shape basis = [nB; nP; Dl; Dm] ->
  contract coords basis 2 =
  Ok (tabulate [nE; nP; D; Dl; Dm]
        (fun idx =>
           sumQc (map (fun b => Qcmult (get coords [nth 0 idx 0; b; nth 2 idx 0])
                                       (get basis [b; nth 1 idx 0; nth 3 idx 0; nth 4 idx 0]))
                      (seq 0 nB)))).
Proof.
  intros Hc Hb. unfold contract.
  simpl (2 =? 0)%Z. simpl (2 =? 1)%Z. simpl (2 =? 2)%Z. cbv iota.
  unfold getitem. rewrite Hc, Hb. simpl.
  unfold mul, broadcast2. simpl shape. unfold broadcast_shapes. simpl.
  rewrite !bdim_1_r, !bdim_1_l, bdim_refl. simpl.
  unfold sum_axis. simpl.
  f_equal. apply tabulate_ext. intros idx Hr. split_range Hr.
  simpl. f_equal. apply map_ext_in. intros b Hin. apply in_seq in Hin.
  rewrite get_tabulate by in_range_tac.
  unfold bidx. simpl. bsel_tac.
  now rewrite !get_tabulate by in_range_tac.
Qed.

(** [eval] on a non-empty point array, once the basis is evaluated and the
    coordinates are gathered. *)
Lemma eval_steps (rm : ReferenceMap) (points : ndarray Qc) (deriv : Z)
  (mask : option any_array) (dim : nat) (basis coords : ndarray Qc) :
  size points <> 0 ->
  size_axis0 (atleast_2d points) = Ok dim ->
  eval_basis (_shape_elem rm) (atleast_2d points) deriv = Ok basis ->
  take0 (nodes (_mesh rm))
        (map_nd (fun v => v - 1)%Z (get_entities (_mesh rm) dim)) = Ok coords ->
  eval rm points deriv mask =
  (c <- apply_mask coords mask ;; contract c basis deriv).
Proof.
  intros Hs Hdim Hbasis Hcoords. unfold eval.
  apply Nat.eqb_neq in Hs. rewrite Hs, Hdim. cbn [bind].
  rewrite Hbasis. cbn [bind]. now rewrite Hcoords.
Qed.

Lemma eval_deriv1_closed_form (rm : ReferenceMap) (points basis : ndarray Qc)
  (dim N D nE nB nP Dl : nat) :
  size points <> 0 ->
  size_axis0 (atleast_2d points) = Ok dim ->
  eval_basis (_shape_elem rm) (atleast_2d points) 1 = Ok basis ->
  shape basis = [nB; nP; Dl] ->
  shape (nodes (_mesh rm)) = [N; D] ->
  shape (get_entities (_mesh rm) dim) = [nE; nB] ->
  (forall e b, e < nE -> b < nB ->
     (1 <= get (get_entities (_mesh rm) dim) [e; b] <= Z.of_nat N)%Z) ->
  exists jacs,
    eval rm points 1 None = Ok jacs
    /\ shape jacs = [nE; nP; D; Dl]
    /\ forall e p d j, e < nE -> p < nP -> d < D -> j < Dl ->
       get jacs [e; p; d; j] =
       sumQc (map (fun b =>
                     Qcmult (get (nodes (_mesh rm))
                               [Z.to_nat (get (get_entities (_mesh rm) dim) [e; b] - 1); d])
                            (get basis [b; p; j]))
                  (seq 0 nB)).
Proof.
  intros Hs Hdim Hbasis Hb Hn Hv Hvalid.
  destruct (@gather_vertices _ _ N D nE nB Hn Hv Hvalid) as (coords & Htake & Hc & Hget).
  rewrite (@eval_steps rm points 1 None dim basis coords) by assumption.
  cbn [apply_mask bind].
  rewrite (@contract1_spec coords basis nE nB D nP Dl Hc Hb).
  eexists. split; [reflexivity|]. split; [reflexivity|].
  intros e p d j He Hp Hd Hj. rewrite get_tabulate by in_range_tac. simpl.
  f_equal. apply map_ext_in. intros b Hin. apply in_seq in Hin.
  now rewrite Hget by lia.
Qed.

(** X2: for a non-empty point array, [deriv = 2] and no mask, the result of
    [eval] has shape nE x nP x D x Dl x Dm and its entry at (e, p, d, j, k)
    is the sum over the basis functions b of the d-th coordinate of vertex b
    of entity e times the second derivative (j, k) of basis function b at
    point p. *)
Theorem eval_deriv2_contraction (rm : ReferenceMap) (points basis : ndarray Qc)
  (dim N D nE nB nP Dl Dm : nat) :
  size points <> 0 ->
  size_axis0 (atleast_2d points) = Ok dim ->
  eval_basis (_shape_elem rm) (atleast_2d points) 2 = Ok basis ->
  shape basis = [nB; nP; Dl; Dm] ->
  shape (nodes (_mesh rm)) = [N; D] ->
  shape (get_entities (_mesh rm) dim) = [nE; nB] ->
  (forall e b, e < nE -> b < nB ->
     (1 <= get (get_entities (_mesh rm) dim) [e; b] <= Z.of_nat N)%Z) ->
  exists hess,
    eval rm points 2 None = Ok hess
    /\ shape hess = [nE; nP; D; Dl; Dm]
    /\ forall e p d j k, e < nE -> p < nP -> d < D -> j < Dl -> k < Dm ->
       get hess [e; p; d; j; k] =
       sumQc (map (fun b =>
                     Qcmult (get (nodes (_mesh rm))
                               [Z.to_nat (get (get_entities (_mesh rm) dim) [e; b] - 1); d])
                            (get basis [b; p; j; k]))
                  (seq 0 nB)).
Proof.
  intros Hs Hdim Hbasis Hb Hn Hv Hvalid.
  destruct (@gather_vertices _ _ N D nE nB Hn Hv Hvalid) as (coords & Htake & Hc & Hget).
  rewrite (@eval_steps rm points 2 None dim basis coords) by assumption.
  cbn [apply_mask bind].
  rewrite (@contract2_spec coords basis nE nB D nP Dl Dm Hc Hb).
  eexists. split; [reflexivity|]. split; [reflexivity|].
  intros e p d j k He Hp Hd Hj Hk. rewrite get_tabulate by in_range_tac. simpl.
  f_equal. apply map_ext_in. intros b Hin. apply in_seq in Hin.
  now rewrite Hget by lia.
Qed.

Lemma indices_1 n : indices [n] = map (fun i => [i]) (seq 0 n).
Proof.
  simpl. generalize 0. induction n as [|n IH]; intros s; simpl; [reflexivity|].
  now rewrite IH.
Qed.

Lemma forallb_over_map {A B} (P : B -> bool) (f : A -> B) (l : list A) :
  forallb P (map f l) = forallb (fun x => P (f x)) l.
Proof. induction l as [|x l IH]; simpl; [reflexivity | now rewrite IH]. Qed.

Lemma forallb_array1 {A} `{Inhab A} (P : A -> bool) (l : list A) :
  forallb (fun j => P (get (array1 l) j)) (indices (shape (array1 l)))
  = forallb P l.
Proof.
  simpl shape. rewrite indices_1, forallb_over_map.
  rewrite <- (map_nth_seq inhab l) at 2. now rewrite forallb_over_map.
Qed.

Lemma take0_array1 {A} `{Inhab A} (a : ndarray A) (n : nat) (rest : list nat)
  (im : list Z) :
  shape a = n :: rest ->
  take0 a (array1 im) =
  if forallb (fun z => is_some (wrap n z)) im
  then Ok (select a (map (wrap0 n) im))
  else Raise (IndexError "index is out of bounds for axis 0").
Proof.
  intros Hs. unfold take0. rewrite Hs.
  rewrite (forallb_array1 (fun z => is_some (wrap n z)) im).
  destruct (forallb _ im); [|reflexivity].
  f_equal. unfold select. rewrite Hs, length_map. simpl.
  apply tabulate_ext. intros idx Hr.
  apply in_range_cons in Hr as (k & r & -> & Hk & Hr). simpl.
  rewrite get_array1.
  rewrite (nth_indep _ 0 (wrap0 n inhab)) by now rewrite length_map.
  now rewrite map_nth.
Qed.

Lemma compress0_select {A} `{Inhab A} (a : ndarray A) (n : nat) (rest : list nat)
  (cond : ndarray bool) :
  shape a = n :: rest ->
  compress0 a cond =
  if forallb (fun i => i <? n) (nonzero cond)
  then Ok (select a (nonzero cond))
  else Raise (IndexError "index is out of bounds for axis 0").
Proof. intros Hs. unfold compress0, select. now rewrite Hs. Qed.

Lemma shape_select {A} `{Inhab A} (a : ndarray A) sel n rest :
  shape a = n :: rest -> shape (select a sel) = length sel :: rest.
Proof. intros Hs. unfold select. now rewrite Hs. Qed.

Lemma get_select {A} `{Inhab A} (a : ndarray A) sel n rest k idx :
  shape a = n :: rest -> k < length sel -> in_range idx rest = true ->
  get (select a sel) (k :: idx) = get a (nth k sel 0 :: idx).
Proof.
  intros Hs Hk Hr. unfold select. rewrite Hs. simpl tl.
  rewrite get_tabulate; [reflexivity|].
  simpl. apply Nat.ltb_lt in Hk. now rewrite Hk.
Qed.

(** Contracting the selected coordinates is selecting from the contraction. *)
Lemma contract_select (coords basis : ndarray Qc) (sel : list nat) (deriv : Z)
  (nE nB D nP Dl : nat) :
  deriv = 0%Z \/ deriv = 1%Z \/ deriv = 2%Z ->
  shape coords = [nE; nB; D] ->
  shape basis = nB :: nP :: repeat Dl (Z.to_nat deriv) ->
  (forall i, In i sel -> i < nE) ->
  contract (select coords sel) basis deriv
  = result_map (fun maps => select maps sel) (contract coords basis deriv).
Proof.
  intros Hd Hc Hb Hsel.
  assert (Hcs := @shape_select _ _ coords sel nE [nB; D] Hc).
  assert (Hnth : forall k, k < length sel -> nth k sel 0 < nE).
  { intros k Hk. apply Hsel. now apply nth_In. }
  destruct Hd as [-> | [-> | ->]]; simpl in Hb.
  - rewrite (@contract0_spec _ _ _ _ _ _ Hcs Hb), (@contract0_spec _ _ _ _ _ _ Hc Hb).
    cbn [result_map]. f_equal. unfold select at 2. simpl.
    apply tabulate_ext. intros idx Hr. split_range Hr. simpl.
    specialize (Hnth _ Hi).
    rewrite get_tabulate by in_range_tac. simpl.
    apply sumQc_ext. intros b Hbb.
    now rewrite (@get_select _ _ coords sel nE [nB; D]) by (assumption || in_range_tac).
  - rewrite (@contract1_spec _ _ _ _ _ _ _ Hcs Hb), (@contract1_spec _ _ _ _ _ _ _ Hc Hb).
    cbn [result_map]. f_equal. unfold select at 2. simpl.
    apply tabulate_ext. intros idx Hr. split_range Hr. simpl.
    specialize (Hnth _ Hi).
    rewrite get_tabulate by in_range_tac. simpl.
    apply sumQc_ext. intros b Hbb.
    now rewrite (@get_select _ _ coords sel nE [nB; D]) by (assumption || in_range_tac).
  - rewrite (@contract2_spec _ _ _ _ _ _ _ _ Hcs Hb), (@contract2_spec _ _ _ _ _ _ _ _ Hc Hb).
    cbn [result_map]. f_equal. unfold select at 2. simpl.
    apply tabulate_ext. intros idx Hr. split_range Hr. simpl.
    specialize (Hnth _ Hi).
    rewrite get_tabulate by in_range_tac. simpl.
    apply sumQc_ext. intros b Hbb.
    now rewrite (@get_select _ _ coords sel nE [nB; D]) by (assumption || in_range_tac).
Qed.

Lemma wrap0_lt n z : is_some (wrap n z) = true -> wrap0 n z < n.
Proof.
  unfold wrap0. destruct (wrap n z) as [k|] eqn:E; [|discriminate].
  intros _. now apply (@wrap_lt n z k).
Qed.

(** X3: with an integer mask of the default integer type, [eval] for
    [deriv] 0, 1 or 2 returns the slices of the unmasked result at the
    masked positions, in the order of the mask, negative positions counting
    from the last entity; a position outside [-nE, nE) raises an index
    error. *)
Theorem eval_int_mask_selects (rm : ReferenceMap) (points basis : ndarray Qc)
  (deriv : Z) (im : list Z) (dim N D nE nB nP Dl : nat) :
  size points <> 0 ->
  size_axis0 (atleast_2d points) = Ok dim ->
  deriv = 0%Z \/ deriv = 1%Z \/ deriv = 2%Z ->
  eval_basis (_shape_elem rm) (atleast_2d points) deriv = Ok basis ->
  shape basis = nB :: nP :: repeat Dl (Z.to_nat deriv) ->
  shape (nodes (_mesh rm)) = [N; D] ->
  shape (get_entities (_mesh rm) dim) = [nE; nB] ->
  (forall e b, e < nE -> b < nB ->
     (1 <= get (get_entities (_mesh rm) dim) [e; b] <= Z.of_nat N)%Z) ->
  eval rm points deriv (Some (IntArray 64 (array1 im))) =
  if forallb (fun z => is_some (wrap nE z)) im
  then result_map (fun maps => select maps (map (wrap0 nE) im))
         (eval rm points deriv None)
  else Raise (IndexError "index is out of bounds for axis 0").
Proof.
  intros Hs Hdim Hd Hbasis Hb Hn Hv Hvalid.
  destruct (@gather_vertices _ _ N D nE nB Hn Hv Hvalid) as (coords & Htake & Hc & _).
  rewrite !(@eval_steps rm points deriv _ dim basis coords) by assumption.
  rewrite apply_mask_int by reflexivity. cbn [apply_mask bind].
  rewrite (@take0_array1 _ _ coords nE [nB; D] im Hc).
  destruct (forallb _ im) eqn:Hall; [|reflexivity]. cbn [bind].
  apply (@contract_select coords basis _ deriv nE nB D nP Dl); try assumption.
  intros i Hi. apply in_map_iff in Hi as (z & <- & Hz).
  apply wrap0_lt. rewrite forallb_forall in Hall. now apply Hall.
Qed.

(** X4: with a boolean mask, [eval] for [deriv] 0, 1 or 2 returns the
    slices of the unmasked result at the positions the mask marks; the mask
    may be shorter than the number of entities, and a mark at a position
    past the last entity raises an index error. *)
Theorem eval_bool_mask_selects (rm : ReferenceMap) (points basis : ndarray Qc)
  (deriv : Z) (bm : list bool) (dim N D nE nB nP Dl : nat) :
  size points <> 0 ->
  size_axis0 (atleast_2d points) = Ok dim ->
  deriv = 0%Z \/ deriv = 1%Z \/ deriv = 2%Z ->
  eval_basis (_shape_elem rm) (atleast_2d points) deriv = Ok basis ->
  shape basis = nB :: nP :: repeat Dl (Z.to_nat deriv) ->
  shape (nodes (_mesh rm)) = [N; D] ->
  shape (get_entities (_mesh rm) dim) = [nE; nB] ->
  (forall e b, e < nE -> b < nB ->
     (1 <= get (get_entities (_mesh rm) dim) [e; b] <= Z.of_nat N)%Z) ->
  eval rm points deriv (Some (BoolArray (array1 bm))) =
  if forallb (fun i => i <? nE) (nonzero (array1 bm))
  then result_map (fun maps => select maps (nonzero (array1 bm)))
         (eval rm points deriv None)
  else Raise (IndexError "index is out of bounds for axis 0").
Proof.
  intros Hs Hdim Hd Hbasis Hb Hn Hv Hvalid.
  destruct (@gather_vertices _ _ N D nE nB Hn Hv Hvalid) as (coords & Htake & Hc & _).
  rewrite !(@eval_steps rm points deriv _ dim basis coords) by assumption.
  rewrite apply_mask_bool by reflexivity. cbn [apply_mask bind].
  rewrite (@compress0_select _ _ coords nE [nB; D] _ Hc).
  destruct (forallb _ (nonzero _)) eqn:Hall; [|reflexivity]. cbn [bind].
  apply (@contract_select coords basis _ deriv nE nB D nP Dl); try assumption.
  intros i Hi. rewrite forallb_forall in Hall. apply Nat.ltb_lt. now apply Hall.
Qed.

(** X5: once the shape element has returned the basis and the coordinates
    are gathered, a mask that is not one-dimensional is refused by the
    assertion of [eval], whatever its element type: the assertion comes
    before the test of the element type and before the contraction. *)
Theorem eval_mask_not_1d (rm : ReferenceMap) (points : ndarray Qc)
  (deriv : Z) (mask : any_array) (dim : nat) (basis coords : ndarray Qc) :
  size points <> 0 ->
  size_axis0 (atleast_2d points) = Ok dim ->
  eval_basis (_shape_elem rm) (atleast_2d points) deriv = Ok basis ->
  take0 (nodes (_mesh rm))
        (map_nd (fun v => v - 1)%Z (get_entities (_mesh rm) dim)) = Ok coords ->
  length (any_shape mask) <> 1 ->
  eval rm points deriv (Some mask) = Raise AssertionError.
Proof.
  intros Hs Hdim Hbasis Hcoords Hnd.
  rewrite (@eval_steps rm points deriv _ dim basis coords) by assumption.
  unfold apply_mask. apply Nat.eqb_neq in Hnd. now rewrite Hnd.
Qed.

(** X6: when the topology stores a vertex index above the number N of
    nodes, or below 1 - N, [eval] with a non-empty point array returns no
    result, whatever the mask and the derivation order: when the shape
    element returns the basis, the gather raises an index error; when the
    shape element raises, refusing the points or the order, that error is
    the outcome. *)
Theorem eval_vertex_out_of_bounds (rm : ReferenceMap) (points : ndarray Qc)
  (deriv : Z) (mask : option any_array) (dim N : nat) (rest idx : list nat) :
  size points <> 0 ->
  size_axis0 (atleast_2d points) = Ok dim ->
  shape (nodes (_mesh rm)) = N :: rest ->
  in_range idx (shape (get_entities (_mesh rm) dim)) = true ->
  (get (get_entities (_mesh rm) dim) idx > Z.of_nat N
   \/ get (get_entities (_mesh rm) dim) idx < 1 - Z.of_nat N)%Z ->
  (forall basis,
     eval_basis (_shape_elem rm) (atleast_2d points) deriv = Ok basis ->
     eval rm points deriv mask =
     Raise (IndexError "index is out of bounds for axis 0"))
  /\ (forall e,
        eval_basis (_shape_elem rm) (atleast_2d points) deriv = Raise e ->
        eval rm points deriv mask = Raise e)
  /\ is_ok (eval rm points deriv mask) = false.
Proof.
  intros Hs Hdim Hn Hr Hv.
  assert (Hgather : take0 (nodes (_mesh rm))
                      (map_nd (fun v => v - 1)%Z (get_entities (_mesh rm) dim))
                    = Raise (IndexError "index is out of bounds for axis 0")).
  { unfold take0. rewrite Hn.
    replace (forallb _ _) with false; [reflexivity|].
    symmetry. apply not_true_is_false. intros Hall.
    rewrite forallb_forall in Hall. specialize (Hall idx).
    rewrite get_map_nd in Hall by assumption.
    assert (E : wrap N (get (get_entities (_mesh rm) dim) idx - 1) = None).
    { unfold wrap.
      destruct ((0 <=? _)%Z && (_ <? Z.of_nat N)%Z) eqn:E1.
      { apply andb_true_iff in E1 as [H1 H2].
        apply Z.leb_le in H1. apply Z.ltb_lt in H2. lia. }
      destruct ((- Z.of_nat N <=? _)%Z && (_ <? 0)%Z) eqn:E2; [|reflexivity].
      apply andb_true_iff in E2 as [H1 H2].
      apply Z.leb_le in H1. apply Z.ltb_lt in H2. lia. }
    rewrite E in Hall. discriminate Hall. now apply in_range_In. }
  unfold eval. apply Nat.eqb_neq in Hs. rewrite Hs, Hdim. cbn [bind].
  destruct (eval_basis (_shape_elem rm) (atleast_2d points) deriv) as [basis|e];
    cbn [bind]; rewrite ?Hgather; cbn [bind].
  - split; [reflexivity|]. split; [discriminate | reflexivity].
  - split; [discriminate|]. split; [|reflexivity]. now intros e' [= ->].
Qed.

Lemma wrap_mod (n : nat) (i : Z) :
  (- Z.of_nat n <= i < Z.of_nat n)%Z ->
  wrap n i = Some (Z.to_nat (i mod Z.of_nat n)).
Proof.
  intros Hi. unfold wrap.
  destruct ((0 <=? i)%Z && (i <? Z.of_nat n)%Z) eqn:E1.
  - apply andb_true_iff in E1 as [H1 H2].
    apply Z.leb_le in H1. apply Z.ltb_lt in H2.
    now rewrite Z.mod_small by lia.
  - assert (Hneg : (i < 0)%Z).
    { apply andb_false_iff in E1 as [H|H];
        [apply Z.leb_gt in H | apply Z.ltb_ge in H]; lia. }
    replace ((- Z.of_nat n <=? i)%Z && (i <? 0)%Z) with true.
    2:{ symmetry. apply andb_true_iff. split; [apply Z.leb_le | apply Z.ltb_lt]; lia. }
    do 2 f_equal. apply Z.mod_unique with (q := (-1)%Z); lia.
Qed.

(** X7: stored vertex indices from 1 - N to N are all accepted by the
    gather of [eval]: the index v reads the node at (v - 1) modulo N, so
    the index 0 (a topology numbered from 0) silently reads the last node
    instead of being refused. *)
Theorem eval_vertex_index_wraps (rm : ReferenceMap) (points basis : ndarray Qc)
  (dim N D nE nB nP : nat) :
  size points <> 0 ->
  size_axis0 (atleast_2d points) = Ok dim ->
  eval_basis (_shape_elem rm) (atleast_2d points) 0 = Ok basis ->
  shape basis = [nB; nP] ->
  shape (nodes (_mesh rm)) = [N; D] ->
  shape (get_entities (_mesh rm) dim) = [nE; nB] ->
  (forall e b, e < nE -> b < nB ->
     (1 - Z.of_nat N <= get (get_entities (_mesh rm) dim) [e; b] <= Z.of_nat N)%Z) ->
  exists maps,
    eval rm points 0 None = Ok maps
    /\ shape maps = [nE; nP; D]
    /\ forall e p d, e < nE -> p < nP -> d < D ->
       get maps [e; p; d] =
       sumQc (map (fun b =>
                     Qcmult (get (nodes (_mesh rm))
                               [Z.to_nat ((get (get_entities (_mesh rm) dim) [e; b] - 1)
                                          mod Z.of_nat N); d])
                            (get basis [b; p]))
                  (seq 0 nB)).
Proof.
  intros Hs Hdim Hbasis Hb Hn Hv Hvalid.
  set (vertices := get_entities (_mesh rm) dim) in *.
  assert (Hw : forall e b, e < nE -> b < nB ->
            wrap N (get (map_nd (fun v => v - 1)%Z vertices) [e; b])
            = Some (Z.to_nat ((get vertices [e; b] - 1) mod Z.of_nat N))).
  { intros e b He Hbb. rewrite get_map_nd by (rewrite Hv; in_range_tac).
    apply wrap_mod. specialize (Hvalid e b He Hbb). lia. }
  assert (Htake := @take0_ok _ _ (nodes (_mesh rm))
                     (map_nd (fun v => v - 1)%Z vertices) N [D] Hn).
  assert (Hok : forall j,
            in_range j (shape (map_nd (fun v => v - 1)%Z vertices)) = true ->
            wrap N (get (map_nd (fun v => v - 1)%Z vertices) j) <> None).
  { intros j Hj. simpl in Hj. rewrite Hv in Hj. split_range Hj. now rewrite Hw. }
  rewrite (@eval_steps rm points 0 None dim basis _ Hs Hdim Hbasis (Htake Hok)).
  cbn [apply_mask bind].
  rewrite (@contract0_spec _ basis nE nB D nP) by (simpl; now rewrite ?Hv).
  eexists. split; [reflexivity|]. split; [reflexivity|].
  intros e p d He Hp Hd. rewrite get_tabulate by in_range_tac. simpl.
  apply sumQc_ext. intros b Hbb. f_equal.
  simpl shape. rewrite Hv. rewrite get_tabulate by in_range_tac.
  unfold ndim. simpl shape. rewrite Hv. simpl.
  unfold wrap0. now rewrite Hw.
Qed.

Lemma P1_basis_gradient (dimension : nat) (xi : ndarray Qc) (D nP : nat) :
  shape xi = [D; nP] -> D <= dimension ->
  P1_eval_basis dimension xi 1 = Ok (linear_gradient D nP).
Proof.
  intros Hs Hle. unfold P1_eval_basis. rewrite (@atleast_2d_2d _ xi D nP Hs), Hs.
  apply Nat.leb_le in Hle. simpl nth. rewrite Hle. reflexivity.
Qed.

Lemma sumQc_S (f : nat -> Qc) (n : nat) :
  sumQc (map f (seq 0 (S n)))
  = Qcplus (f 0) (sumQc (map (fun i => f (S i)) (seq 0 n))).
Proof. simpl. now rewrite <- seq_shift, map_map. Qed.

Lemma sum_affine (a x : nat -> Qc) (c : Qc) (l : list nat) :
  sumQc (map (fun i => Qcmult (Qcminus (a i) c) (x i)) l)
  = Qcminus (sumQc (map (fun i => Qcmult (a i) (x i)) l))
            (Qcmult c (sumQc (map x l))).
Proof.
  induction l as [|i l IH]; simpl; [ring|]. rewrite IH. ring.
Qed.

Lemma sum_delta (a : nat -> Qc) (j : nat) (l : list nat) :
  NoDup l ->
  sumQc (map (fun k => Qcmult (a k) (if k =? j then 1%Qc else 0%Qc)) l)
  = if existsb (Nat.eqb j) l then a j else 0%Qc.
Proof.
  induction l as [|k l IH]; intros Hnd; simpl; [reflexivity|].
  inversion Hnd as [|? ? Hnotin Hnd']; subst. rewrite (IH Hnd').
  rewrite (Nat.eqb_sym j k).
  destruct (k =? j) eqn:E; simpl.
  - apply Nat.eqb_eq in E. subst k.
    replace (existsb (Nat.eqb j) l) with false; [ring|].
    symmetry. apply not_true_is_false. intros H.
    apply existsb_exists in H as (x & Hx & Hxj). apply Nat.eqb_eq in Hxj.
    now subst.
  - ring.
Qed.

Lemma sum_delta_seq (a : nat -> Qc) (j n : nat) :
  j < n ->
  sumQc (map (fun k => Qcmult (a k) (if k =? j then 1%Qc else 0%Qc)) (seq 0 n))
  = a j.
Proof.
  intros Hj. rewrite sum_delta by apply seq_NoDup.
  replace (existsb (Nat.eqb j) (seq 0 n)) with true; [reflexivity|].
  symmetry. apply existsb_exists. exists j. split; [apply in_seq; lia|].
  apply Nat.eqb_refl.
Qed.

(** Closes a goal [in_range idx s = true] whose entries may be successors. *)
Ltac range_tac :=
  cbn [in_range]; rewrite ?andb_true_iff, ?Nat.ltb_lt; repeat split;
  solve [reflexivity | lia | assumption].

Section LinearElement.

Variable rm : ReferenceMap.
Variable xi : ndarray Qc.
Variables N Dn D nE nP : nat.

Let mesh := _mesh rm.

Hypothesis Hxi : shape xi = [D; nP].
Hypothesis Hsize : D <> 0 /\ nP <> 0.
Hypothesis Hnodes : shape (nodes mesh) = [N; Dn].
Hypothesis Hcells : shape (get_entities mesh D) = [nE; S D].
Hypothesis Hvalid : forall e b, e < nE -> b < S D ->
  (1 <= get (get_entities mesh D) [e; b] <= Z.of_nat N)%Z.

Lemma linear_size : size xi <> 0.
Proof. unfold size. rewrite Hxi. simpl. nia. Qed.

Lemma linear_dim : size_axis0 (atleast_2d xi) = Ok D.
Proof. rewrite (@atleast_2d_2d _ xi D nP Hxi). unfold size_axis0. now rewrite Hxi. Qed.

(** With the linear basis the map is affine: first vertex plus edge
    vectors times local coordinates. *)
Lemma eval_affine_closed_form :
  eval_basis (_shape_elem rm) xi 0 = Ok (linear_basis xi D nP) ->
  exists maps,
    eval rm xi 0 None = Ok maps
    /\ shape maps = [nE; nP; Dn]
    /\ forall e p d, e < nE -> p < nP -> d < Dn ->
       get maps [e; p; d] =
       Qcplus (element_vertex mesh D e 0 d)
              (sumQc (map (fun j => Qcmult (edge_matrix mesh D e d j) (get xi [j; p]))
                          (seq 0 D))).
Proof.
  intros Hbasis.
  destruct (@eval_deriv0_closed_form rm xi (linear_basis xi D nP)
              D N Dn nE (S D) nP) as (maps & Hev & Hsh & Hget);
    try assumption; try reflexivity.
  { apply linear_size. }
  { apply linear_dim. }
  { now rewrite (@atleast_2d_2d _ xi D nP Hxi). }
  exists maps. split; [exact Hev|]. split; [exact Hsh|].
  intros e p d He Hp Hd. rewrite Hget by assumption.
  rewrite sumQc_S.
  match goal with
  | |- Qcplus _ (sumQc (map ?f _)) = _ =>
      rewrite (@sumQc_ext f
                 (fun k => Qcmult (element_vertex mesh D e (S k) d) (get xi [k; p])) D)
  end.
  2:{ intros k Hk. unfold linear_basis. rewrite get_tabulate by range_tac.
      reflexivity. }
  unfold linear_basis. rewrite get_tabulate by range_tac. simpl nth. cbv iota.
  unfold edge_matrix. rewrite sum_affine. unfold element_vertex. fold mesh. ring.
Qed.

(** With the linear basis the Jacobian is the matrix of the edge vectors,
    at every point. *)
Lemma eval_jacobian_closed_form :
  eval_basis (_shape_elem rm) xi 1 = Ok (linear_gradient D nP) ->
  exists jacs,
    eval rm xi 1 None = Ok jacs
    /\ shape jacs = [nE; nP; Dn; D]
    /\ forall e p i j, e < nE -> p < nP -> i < Dn -> j < D ->
       get jacs [e; p; i; j] = edge_matrix mesh D e i j.
Proof.
  intros Hbasis.
  destruct (@eval_deriv1_closed_form rm xi (linear_gradient D nP)
              D N Dn nE (S D) nP D) as (jacs & Hev & Hsh & Hget);
    try assumption; try reflexivity.
  { apply linear_size. }
  { apply linear_dim. }
  { now rewrite (@atleast_2d_2d _ xi D nP Hxi). }
  exists jacs. split; [exact Hev|]. split; [exact Hsh|].
  intros e p i j He Hp Hi Hj. rewrite Hget by assumption.
  rewrite sumQc_S.
  match goal with
  | |- Qcplus _ (sumQc (map ?f _)) = _ =>
      rewrite (@sumQc_ext f
                 (fun k => Qcmult (element_vertex mesh D e (S k) i)
                                  (if k =? j then 1%Qc else 0%Qc)) D)
  end.
  2:{ intros k Hk. unfold linear_gradient. rewrite get_tabulate by range_tac.
      reflexivity. }
  unfold linear_gradient. rewrite get_tabulate by range_tac. simpl nth. cbv iota.
  rewrite (@sum_delta_seq (fun k => element_vertex mesh D e (S k) i) j D Hj).
  unfold edge_matrix, element_vertex. fold mesh. ring.
Qed.

End LinearElement.

Section Volumes.

Variable sqrt : Qc -> Qc.

(** X10: on the cells of a mesh of dimension 1, 2 or 3 whose shape element
    has the linear basis, [jacobian_determinant] returns, for every cell
    and at every point, the determinant of the matrix of the edge vectors
    of the cell. *)
Theorem jacobian_determinant_cells (rm : ReferenceMap) (xi : ndarray Qc)
  (N D nE nP : nat) :
  D = 1 \/ D = 2 \/ D = 3 ->
  shape xi = [D; nP] -> nP <> 0 ->
  shape (nodes (_mesh rm)) = [N; D] ->
  shape (get_entities (_mesh rm) D) = [nE; S D] ->
  (forall e b, e < nE -> b < S D ->
     (1 <= get (get_entities (_mesh rm) D) [e; b] <= Z.of_nat N)%Z) ->
  eval_basis (_shape_elem rm) xi 1 = Ok (linear_gradient D nP) ->
  jacobian_determinant sqrt rm xi None =
  Ok (tabulate [nE; nP]
        (fun idx => det D (edge_matrix (_mesh rm) D (nth 0 idx 0)))).
Proof.
  intros HD Hxi HnP Hn Hv Hvalid Hbasis.
  destruct (@eval_jacobian_closed_form rm xi N D D nE nP)
    as (jacs & Hev & Hsh & Hget); try assumption.
  { split; [lia | assumption]. }
  rewrite (@jacobian_determinant_square sqrt rm xi None jacs [nE; nP] D Hev Hsh HD).
  f_equal. apply tabulate_ext. intros idx Hr. split_range Hr. simpl nth.
  apply det_ext. intros r c Hr Hc. unfold block. simpl. now apply Hget.
Qed.

(** X11: for the trailing shapes (2,1) and (3,2) the value that
    [jacobian_determinant] returns is the square root of the determinant of
    the Gram matrix of the Jacobian (its transpose times itself). *)
Theorem jacobian_determinant_gram (rm : ReferenceMap) (points : ndarray Qc)
  (mask : option any_array) (jacs : ndarray Qc) (nE nP : nat) :
  eval rm points 1 mask = Ok jacs ->
  (shape jacs = [nE; nP; 2; 1] ->
   jacobian_determinant sqrt rm points mask =
   Ok (tabulate [nE; nP] (fun idx => sqrt (det 1 (gram 2 (block jacs idx))))))
  /\ (shape jacs = [nE; nP; 3; 2] ->
      jacobian_determinant sqrt rm points mask =
      Ok (tabulate [nE; nP] (fun idx => sqrt (det 2 (gram 3 (block jacs idx)))))).
Proof.
  intros Hev. split; intros Hs.
  - rewrite (@jacobian_determinant_curve sqrt rm points mask jacs nE nP Hev Hs).
    f_equal. apply tabulate_ext. intros idx Hr. f_equal.
    rewrite det_1. unfold gram, norm2, column. simpl. ring.
  - rewrite (@jacobian_determinant_surface sqrt rm points mask jacs nE nP Hev Hs).
    f_equal. apply tabulate_ext. intros idx Hr. f_equal.
    rewrite det_2. unfold gram, norm2, cross, column. simpl. ring.
Qed.

End Volumes.

(** X12: on the cells of a mesh of dimension 1, 2 or 3 whose shape element
    has the linear basis, [jacobian_inverse] returns at every point the
    inverse of the matrix of the edge vectors of the cell when no cell is
    degenerate, and raises the singular matrix error as soon as one cell is
    degenerate. *)
Theorem jacobian_inverse_cells (rm : ReferenceMap) (xi : ndarray Qc)
  (N D nE nP : nat) :
  D = 1 \/ D = 2 \/ D = 3 ->
  shape xi = [D; nP] -> nP <> 0 ->
  shape (nodes (_mesh rm)) = [N; D] ->
  shape (get_entities (_mesh rm) D) = [nE; S D] ->
  (forall e b, e < nE -> b < S D ->
     (1 <= get (get_entities (_mesh rm) D) [e; b] <= Z.of_nat N)%Z) ->
  eval_basis (_shape_elem rm) xi 1 = Ok (linear_gradient D nP) ->
  ((forall e, e < nE -> det D (edge_matrix (_mesh rm) D e) <> 0%Qc) ->
   jacobian_inverse rm xi None =
   Ok (tabulate [nE; nP; D; D]
         (fun idx => inverse D (edge_matrix (_mesh rm) D (nth 0 idx 0))
                             (nth 2 idx 0) (nth 3 idx 0))))
  /\ (forall e, e < nE -> det D (edge_matrix (_mesh rm) D e) = 0%Qc ->
      jacobian_inverse rm xi None = Raise (LinAlgError "Singular matrix")).
Proof.
  intros HD Hxi HnP Hn Hv Hvalid Hbasis.
  destruct (@eval_jacobian_closed_form rm xi N D D nE nP)
    as (jacs & Hev & Hsh & Hget); try assumption.
  { split; [lia | assumption]. }
  assert (Hblock : forall e p r c, e < nE -> p < nP -> r < D -> c < D ->
            block jacs [e; p] r c = edge_matrix (_mesh rm) D e r c).
  { intros e p r c He Hp Hr Hc. unfold block. simpl. now apply Hget. }
  rewrite (@jacobian_inverse_square rm xi None jacs [nE; nP] D Hev Hsh HD).
  split.
  - intros Hdet. rewrite (@linalg_inv_ok jacs [nE; nP] D Hsh).
    2:{ intros idx Hr. split_range Hr.
        rewrite (@det_ext D _ (edge_matrix (_mesh rm) D i)); [now apply Hdet|].
        intros r c Hr Hc. now apply Hblock. }
    f_equal. simpl app. apply tabulate_ext. intros idx Hr. split_range Hr.
    simpl. apply inverse_ext; try assumption.
    intros r c Hr Hc. now apply Hblock.
  - intros e He Hdet.
    apply (@linalg_inv_singular jacs [nE; nP] D [e; 0] Hsh).
    + range_tac.
    + rewrite (@det_ext D _ (edge_matrix (_mesh rm) D e)); [assumption|].
      intros r c Hr Hc. apply Hblock; (assumption || lia).
Qed.

(** X15: on a mesh whose nodes have as many coordinates as its dimension,
    [eval_inverse] never returns a result when the hosts are given as a
    one-dimensional array (one number per point, such as the position of
    the host cell). *)
Theorem eval_inverse_hosts_1d_array (rm : ReferenceMap) (points : ndarray Qc)
  (hosts : ndarray Z) (n N D : nat) :
  shape hosts = [n] ->
  shape (nodes (_mesh rm)) = [N; D] ->
  dimension (_mesh rm) = D ->
  is_ok (eval_inverse rm points hosts) = false.
Proof.
  intros Hh Hn Hd. unfold eval_inverse.
  destruct (size_axis0 points) as [dim|]; [|reflexivity]. cbn [bind].
  destruct (negb (order (_shape_elem rm) =? 1)); [reflexivity|].
  rewrite Hd.
  destruct (negb ((D =? 1) || (D =? 2))) eqn:HD; [reflexivity|].
  destruct (negb (dim =? D)) eqn:Hdim; [reflexivity|].
  apply negb_false_iff in Hdim. apply Nat.eqb_eq in Hdim. subst dim.
  destruct (take0 _ _) as [coords|] eqn:Htake; [|reflexivity]. cbn [bind].
  apply take0_shape in Htake as (m & rest & Hn' & Hc).
  rewrite Hn in Hn'. injection Hn' as <- <-. simpl in Hc. rewrite Hh in Hc.
  simpl in Hc.
  unfold take_at, ndim, getitem. rewrite Hc.
  destruct D as [|[|[|D]]]; try discriminate HD.
  - reflexivity.
  - simpl. unfold sub at 1, broadcast2. simpl shape. unfold broadcast_shapes.
    simpl. rewrite bdim_refl. reflexivity.
Qed.

(** X14: on a mesh of dimension 2, [eval_inverse] raises the singular
    matrix error as soon as the edge vectors of the host of one point are
    linearly dependent. *)
Theorem eval_inverse_2d_singular (rm : ReferenceMap) (points : ndarray Qc)
  (hosts : ndarray Z) (N nP i : nat) :
  order (_shape_elem rm) = 1 ->
  dimension (_mesh rm) = 2 ->
  shape (nodes (_mesh rm)) = [N; 2] ->
  shape points = [2; nP] ->
  shape hosts = [nP; 3] ->
  (forall i k, i < nP -> k < 3 -> (1 <= get hosts [i; k] <= Z.of_nat N)%Z) ->
  i < nP ->
  det 2 (host_matrix (_mesh rm) hosts i) = 0%Qc ->
  eval_inverse rm points hosts = Raise (LinAlgError "Singular matrix").
Proof.
  intros Ho Hd Hn Hp Hh Hvalid Hi Hdet.
  destruct (@gather_vertices (nodes (_mesh rm)) hosts N 2 nP 3 Hn Hh Hvalid)
    as (coords & Htake & Hc & Hget).
  unfold eval_inverse, size_axis0. rewrite Hp, Ho, Hd. cbn [bind Nat.eqb negb orb].
  rewrite Htake. cbn [bind].
  unfold take_at, ndim, getitem. rewrite Hc. simpl.
  unfold sub, mul, broadcast2, transpose. simpl shape. rewrite Hp.
  unfold broadcast_shapes. simpl. rewrite !bdim_refl. simpl.
  unfold dstack2. simpl.
  rewrite !Nat.eqb_refl. simpl.
  match goal with |- context [linalg_inv ?a] => set (P := a) end.
  assert (HP : forall r c, r < 2 -> c < 2 ->
            block P [i] r c = host_matrix (_mesh rm) hosts i r c).
  { intros r c Hr Hcc. unfold block. simpl. subst P.
    rewrite get_tabulate by in_range_tac.
    unfold host_matrix, host_vertex.
    destruct c as [|[|c]]; try lia; simpl;
      rewrite (@get_atleast_3d _ _ _ nP 2) by reflexivity;
      nd_simp; now rewrite !Hget by lia. }
  rewrite (@linalg_inv_singular P [nP] 2 [i] eq_refl); [reflexivity| |].
  - range_tac.
  - now rewrite (@det_ext 2 _ (host_matrix (_mesh rm) hosts i) HP).
Qed.

Section EntityHosts.

Variable mesh : Mesh.
Variable es : list nat.
Variables N D nE nP : nat.

Hypothesis Hvalid : forall e b, e < nE -> b < S D ->
  (1 <= get (get_entities mesh D) [e; b] <= Z.of_nat N)%Z.
Hypothesis Hes : length es = nP.
Hypothesis Hhost : forall i, i < nP -> nth i es 0 < nE.

Lemma entity_hosts_shape : shape (entity_hosts mesh D es) = [nP; S D].
Proof. unfold entity_hosts. simpl. now rewrite Hes. Qed.

Lemma entity_hosts_get i k :
  i < nP -> k < S D ->
  get (entity_hosts mesh D es) [i; k] = get (get_entities mesh D) [nth i es 0; k].
Proof.
  intros Hi Hk. unfold entity_hosts. rewrite Hes.
  now rewrite get_tabulate by range_tac.
Qed.

Lemma entity_hosts_valid i k :
  i < nP -> k < S D ->
  (1 <= get (entity_hosts mesh D es) [i; k] <= Z.of_nat N)%Z.
Proof.
  intros Hi Hk. rewrite entity_hosts_get by assumption.
  apply Hvalid; [apply Hhost|]; assumption.
Qed.

Lemma entity_host_vertex i k d :
  i < nP -> k < S D ->
  host_vertex mesh (entity_hosts mesh D es) i k d
  = element_vertex mesh D (nth i es 0) k d.
Proof.
  intros Hi Hk. unfold host_vertex, element_vertex.
  now rewrite entity_hosts_get.
Qed.

Lemma entity_host_matrix i r c :
  i < nP -> c < D ->
  host_matrix mesh (entity_hosts mesh D es) i r c
  = edge_matrix mesh D (nth i es 0) r c.
Proof.
  intros Hi Hc. unfold host_matrix, edge_matrix.
  now rewrite !entity_host_vertex by lia.
Qed.

End EntityHosts.

Lemma forward_after_inverse_1d (rm : ReferenceMap) (x : ndarray Qc)
  (es : list nat) (N nE nP : nat) :
  order (_shape_elem rm) = 1 ->
  dimension (_mesh rm) = 1 ->
  shape (nodes (_mesh rm)) = [N; 1] ->
  shape (get_entities (_mesh rm) 1) = [nE; 2] ->
  (forall e b, e < nE -> b < 2 ->
     (1 <= get (get_entities (_mesh rm) 1) [e; b] <= Z.of_nat N)%Z) ->
  shape x = [1; nP] -> nP <> 0 -> length es = nP ->
  (forall i, i < nP ->
     nth i es 0 < nE /\ det 1 (edge_matrix (_mesh rm) 1 (nth i es 0)) <> 0%Qc) ->
  (forall xi, shape xi = [1; nP] ->
     eval_basis (_shape_elem rm) xi 0 = Ok (linear_basis xi 1 nP)) ->
  exists xi maps,
    eval_inverse rm x (entity_hosts (_mesh rm) 1 es) = Ok xi
    /\ eval rm xi 0 None = Ok maps
    /\ forall i d, i < nP -> d < 1 -> get maps [nth i es 0; i; d] = get x [d; i].
Proof.
  intros Horder Hdim Hnodes Hcells Hvalid Hx HnP Hes Hhost Hbasis.
  set (mesh := _mesh rm) in *.
  assert (Hin : forall i, i < nP -> nth i es 0 < nE) by (intros i Hi; now apply Hhost).
  eexists.
  destruct (@eval_affine_closed_form rm
              (tabulate [1; nP]
        (fun idx =>
           let i := nth 1 idx 0 in
           Qcdiv (Qcminus (get x [0; i])
                    (host_vertex (_mesh rm) (entity_hosts mesh 1 es) i 0 0))
                 (Qcminus (host_vertex (_mesh rm) (entity_hosts mesh 1 es) i 1 0)
                          (host_vertex (_mesh rm) (entity_hosts mesh 1 es) i 0 0))))
              N 1 1 nE nP)
    as (maps & Hev & Hsh & Hget); try assumption; try reflexivity.
  { split; [lia | assumption]. }
  { now apply Hbasis. }
  exists maps. split; [|split; [exact Hev|]].
  - apply (@eval_inverse_1d_closed_form rm x (entity_hosts mesh 1 es) N nP);
      try assumption.
    + now apply entity_hosts_shape.
    + now apply (@entity_hosts_valid mesh es N 1 nE nP).
  - intros i d Hi Hd. assert (d = 0) by lia. subst d.
    destruct (Hhost i Hi) as [He Hdet].
    rewrite Hget by (assumption || lia). simpl.
    rewrite get_tabulate by range_tac. simpl. fold mesh.
    rewrite !(@entity_host_vertex mesh es 1 nP Hes) by lia.
    rewrite det_1 in Hdet. unfold edge_matrix in *. field. exact Hdet.
Qed.

Lemma forward_after_inverse_2d (rm : ReferenceMap) (x : ndarray Qc)
  (es : list nat) (N nE nP : nat) :
  order (_shape_elem rm) = 1 ->
  dimension (_mesh rm) = 2 ->
  shape (nodes (_mesh rm)) = [N; 2] ->
  shape (get_entities (_mesh rm) 2) = [nE; 3] ->
  (forall e b, e < nE -> b < 3 ->
     (1 <= get (get_entities (_mesh rm) 2) [e; b] <= Z.of_nat N)%Z) ->
  shape x = [2; nP] -> nP <> 0 -> length es = nP ->
  (forall i, i < nP ->
     nth i es 0 < nE /\ det 2 (edge_matrix (_mesh rm) 2 (nth i es 0)) <> 0%Qc) ->
  (forall xi, shape xi = [2; nP] ->
     eval_basis (_shape_elem rm) xi 0 = Ok (linear_basis xi 2 nP)) ->
  exists xi maps,
    eval_inverse rm x (entity_hosts (_mesh rm) 2 es) = Ok xi
    /\ eval rm xi 0 None = Ok maps
    /\ forall i d, i < nP -> d < 2 -> get maps [nth i es 0; i; d] = get x [d; i].
Proof.
  intros Horder Hdim Hnodes Hcells Hvalid Hx HnP Hes Hhost Hbasis.
  set (mesh := _mesh rm) in *.
  assert (Hin : forall i, i < nP -> nth i es 0 < nE) by (intros i Hi; now apply Hhost).
  assert (HM : forall i r c, i < nP -> r < 2 -> c < 2 ->
            host_matrix mesh (entity_hosts mesh 2 es) i r c
            = edge_matrix mesh 2 (nth i es 0) r c).
  { intros i r c Hi Hr Hc. now apply (@entity_host_matrix mesh es 2 nP). }
  eexists.
  destruct (@eval_affine_closed_form rm
              (tabulate [2; nP]
        (fun idx =>
           let j := nth 0 idx 0 in
           let i := nth 1 idx 0 in
           sumQc (map (fun k =>
                         Qcmult (inverse 2 (host_matrix (_mesh rm)
                                              (entity_hosts mesh 2 es) i) j k)
                                (Qcminus (get x [k; i])
                                         (host_vertex (_mesh rm)
                                            (entity_hosts mesh 2 es) i 0 k)))
                      (seq 0 2))))
              N 2 2 nE nP)
    as (maps & Hev & Hsh & Hget); try assumption; try reflexivity.
  { split; [lia | assumption]. }
  { now apply Hbasis. }
  exists maps. split; [|split; [exact Hev|]].
  - apply (@eval_inverse_2d_closed_form rm x (entity_hosts mesh 2 es) N nP);
      try assumption.
    + now apply entity_hosts_shape.
    + now apply (@entity_hosts_valid mesh es N 2 nE nP).
    + intros i Hi. fold mesh.
      rewrite (@det_ext 2 _ (edge_matrix mesh 2 (nth i es 0))).
      * now apply Hhost.
      * intros r c Hr Hc. now apply HM.
  - intros i d Hi Hd.
    destruct (Hhost i Hi) as [He Hdet].
    rewrite Hget by (assumption || lia). simpl.
    rewrite !get_tabulate by range_tac. simpl. fold mesh.
    rewrite !(@inverse_ext 2 (host_matrix mesh (entity_hosts mesh 2 es) i)
                (edge_matrix mesh 2 (nth i es 0))) by (auto || lia).
    rewrite !(@entity_host_vertex mesh es 2 nP Hes) by lia.
    unfold inverse. rewrite det_2 in *. unfold edge_matrix in *.
    destruct d as [|[|d]]; try lia; simpl; unfold sign, minor, skip; simpl;
      field; exact Hdet.
Qed.

Lemma eval_empty (rm : ReferenceMap) (points : ndarray Qc) (deriv : Z)
  (mask : option any_array) (N D : nat) :
  size points = 0 ->
  shape (nodes (_mesh rm)) = [N; D] ->
  eval rm points deriv mask =
  Ok (tabulate [N; 1; D] (fun idx => get (nodes (_mesh rm)) [nth 0 idx 0; nth 2 idx 0])).
Proof.
  intros Hs Hn. unfold eval. rewrite Hs. simpl. unfold getitem. rewrite Hn. simpl.
  f_equal. apply tabulate_ext. intros idx Hr. now split_range Hr.
Qed.

(** X17: with an empty point array the two Jacobian functions work on the
    node coordinates that [eval] returns: on a mesh of dimension 1
    [jacobian_determinant] returns the coordinate of each node, and on a
    mesh of dimension 2 or more both functions raise their not implemented
    error (the trailing shape being (1, D)). *)
Theorem jacobian_empty_points (sqrt : Qc -> Qc) (rm : ReferenceMap)
  (points : ndarray Qc) (mask : option any_array) (N D : nat) :
  size points = 0 ->
  shape (nodes (_mesh rm)) = [N; D] ->
  (D = 1 ->
   jacobian_determinant sqrt rm points mask =
   Ok (tabulate [N] (fun idx => get (nodes (_mesh rm)) [nth 0 idx 0; 0])))
  /\ (2 <= D ->
      jacobian_determinant sqrt rm points mask =
      Raise (NotImplementedError
               (String.append "Unsupported shape of jacobians! ("
                  (String.append (show_shape [N; 1; D]) ")")))
      /\ jacobian_inverse rm points mask =
         Raise (NotImplementedError "Jacobian inverse not available yet!")).
Proof.
  intros Hs Hn.
  assert (Hev := @eval_empty rm points 1 mask N D Hs Hn).
  split.
  - intros ->.
    rewrite (@jacobian_determinant_square sqrt rm points mask _ [N] 1 Hev eq_refl)
      by now left.
    f_equal. apply tabulate_ext. intros idx Hr. split_range Hr.
    rewrite det_1. unfold block. simpl.
    now rewrite get_tabulate by range_tac.
  - intros HD. split.
    + rewrite (@jacobian_determinant_unsupported sqrt rm points mask _ Hev);
        [reflexivity|].
      simpl. destruct D as [|[|D]]; try lia. reflexivity.
    + apply (@jacobian_inverse_not_implemented rm points mask _ [N] 1 D Hev eq_refl).
      * apply shape_in_nonsquare. lia.
      * lia.
Qed.

(** * The further properties, stated and instantiated *)

(** A bound on the entries of a table of integers, checked entry by
    entry. *)
Lemma entries_between (v : ndarray Z) (lo hi : Z) (nE nB : nat) :
  forallb (fun idx => (lo <=? get v idx)%Z && (get v idx <=? hi)%Z)
          (indices [nE; nB]) = true ->
  forall e b, e < nE -> b < nB -> (lo <= get v [e; b] <= hi)%Z.
Proof.
  intros Hall e b He Hb. rewrite forallb_forall in Hall.
  specialize (Hall [e; b]). rewrite andb_true_iff, Z.leb_le, Z.leb_le in Hall.
  apply Hall. apply in_range_In. range_tac.
Qed.

Ltac valid_tac := apply entries_between; vm_compute; reflexivity.

(** X1: for a non-empty point array, [deriv = 1] and no mask, the result of
    [eval] has shape nE x nP x D x Dl and its entry at (e, p, d, j) is the
    sum over the basis functions b of the d-th coordinate of vertex b of
    entity e times the derivative in direction j of basis function b at
    point p. *)
Theorem eval_deriv1_contraction (rm : ReferenceMap) (points basis : ndarray Qc)
  (dim N D nE nB nP Dl : nat) :
  size points <> 0 ->
  size_axis0 (atleast_2d points) = Ok dim ->
  eval_basis (_shape_elem rm) (atleast_2d points) 1 = Ok basis ->
  shape basis = [nB; nP; Dl] ->
  shape (nodes (_mesh rm)) = [N; D] ->
  shape (get_entities (_mesh rm) dim) = [nE; nB] ->
  (forall e b, e < nE -> b < nB ->
     (1 <= get (get_entities (_mesh rm) dim) [e; b] <= Z.of_nat N)%Z) ->
  exists jacs,
    eval rm points 1 None = Ok jacs
    /\ shape jacs = [nE; nP; D; Dl]
    /\ forall e p d j, e < nE -> p < nP -> d < D -> j < Dl ->
       get jacs [e; p; d; j] =
       sumQc (map (fun b =>
                     Qcmult (get (nodes (_mesh rm))
                               [Z.to_nat (get (get_entities (_mesh rm) dim) [e; b] - 1); d])
                            (get basis [b; p; j]))
                  (seq 0 nB)).
Proof. exact (@eval_deriv1_closed_form rm points basis dim N D nE nB nP Dl). Qed.

(** The second triangle of the mesh of two triangles: the derivative of the
    first coordinate in the second local direction is -2. *)
Lemma eval_deriv1_contraction_witness :
  exists jacs,
    eval (ReferenceMap_init mesh_2d) (array2 [[qc 1 2]; [qc 1 3]]) 1 None = Ok jacs
    /\ shape jacs = [2; 1; 2; 2]
    /\ get jacs [1; 0; 0; 1] = qc (-2) 1.
Proof.
  destruct (@eval_deriv1_contraction (ReferenceMap_init mesh_2d)
              (array2 [[qc 1 2]; [qc 1 3]]) (linear_gradient 2 1)
              2 4 2 2 3 1 2) as (jacs & Hev & Hsh & Hget);
    try reflexivity.
  - discriminate.
  - valid_tac.
  - exists jacs. split; [exact Hev|]. split; [exact Hsh|].
    rewrite Hget by lia. apply Qc_is_canon. vm_compute. reflexivity.
Defined.

Lemma eval_deriv2_contraction_witness :
  exists hess,
    eval (ReferenceMap_init mesh_2d) (array2 [[qc 1 2]; [qc 1 3]]) 2 None = Ok hess
    /\ shape hess = [2; 1; 2; 2; 2]
    /\ get hess [1; 0; 0; 1; 1] = qc 0 1.
Proof.
  destruct (@eval_deriv2_contraction (ReferenceMap_init mesh_2d)
              (array2 [[qc 1 2]; [qc 1 3]])
              (tabulate [3; 1; 2; 2] (fun _ => 0%Qc))
              2 4 2 2 3 1 2 2) as (hess & Hev & Hsh & Hget);
    try reflexivity.
  - discriminate.
  - valid_tac.
  - exists hess. split; [exact Hev|]. split; [exact Hsh|].
    rewrite Hget by lia. apply Qc_is_canon. vm_compute. reflexivity.
Defined.

(** On the five edges of the mesh of two triangles the mask [[-1, 0]]
    selects the last edge, then the first. *)
Lemma eval_int_mask_selects_witness :
  eval (ReferenceMap_init mesh_2d) (array2 [[qc 1 2]]) 1
       (Some (IntArray 64 (array1 [-1; 0]%Z)))
  = result_map (fun maps => select maps [4; 0])
      (eval (ReferenceMap_init mesh_2d) (array2 [[qc 1 2]]) 1 None).
Proof.
  apply (@eval_int_mask_selects (ReferenceMap_init mesh_2d) (array2 [[qc 1 2]])
           (linear_gradient 1 1) 1 [-1; 0]%Z 1 4 2 5 2 1 1);
    try reflexivity.
  - discriminate.
  - right. now left.
  - valid_tac.
Defined.

Lemma eval_bool_mask_selects_witness :
  eval (ReferenceMap_init mesh_2d) (array2 [[qc 1 2]]) 0
       (Some (BoolArray (array1 [false; true; false; true])))
  = result_map (fun maps => select maps [1; 3])
      (eval (ReferenceMap_init mesh_2d) (array2 [[qc 1 2]]) 0 None).
Proof.
  apply (@eval_bool_mask_selects (ReferenceMap_init mesh_2d) (array2 [[qc 1 2]])
           (linear_basis (array2 [[qc 1 2]]) 1 1) 0 [false; true; false; true]
           1 4 2 5 2 1 0);
    try reflexivity.
  - discriminate.
  - now left.
  - valid_tac.
Defined.

(** A two-dimensional mask of floats, with the first derivatives asked
    for. *)
Lemma eval_mask_not_1d_witness :
  eval (ReferenceMap_init mesh_1d) (array2 [[qc 1 2]]) 1
       (Some (FloatArray 64 (array2 [[qc 1 1; qc 0 1]])))
  = Raise AssertionError.
Proof.
  apply (@eval_mask_not_1d (ReferenceMap_init mesh_1d) (array2 [[qc 1 2]]) 1
           (FloatArray 64 (array2 [[qc 1 1; qc 0 1]])) 1
           (linear_gradient 1 1)
           (returned (take0 (nodes mesh_1d)
                        (map_nd (fun v => v - 1)%Z (get_entities mesh_1d 1)))));
    try reflexivity.
  - discriminate.
  - discriminate.
Defined.

Lemma eval_vertex_out_of_bounds_witness :
  eval (ReferenceMap_init mesh_out_of_range) (array2 [[qc 1 2]]) 0 None
  = Raise (IndexError "index is out of bounds for axis 0").
Proof.
  apply (proj1 (@eval_vertex_out_of_bounds (ReferenceMap_init mesh_out_of_range)
                  (array2 [[qc 1 2]]) 0 None 1 3 [1] [1; 1]
                  ltac:(discriminate) eq_refl eq_refl eq_refl
                  ltac:(left; vm_compute; reflexivity))
           (linear_basis (array2 [[qc 1 2]]) 1 1)).
  reflexivity.
Defined.

(** With the cells [[0, 1], [1, 2]] the first cell runs from the last node
    (coordinate 2) to the first: the local point 1/2 is mapped to 1, not to
    1/2. *)
Lemma eval_vertex_index_wraps_witness :
  exists maps,
    eval (ReferenceMap_init mesh_zero_based) (array2 [[qc 1 2]]) 0 None = Ok maps
    /\ shape maps = [2; 1; 1]
    /\ get maps [0; 0; 0] = qc 1 1.
Proof.
  destruct (@eval_vertex_index_wraps (ReferenceMap_init mesh_zero_based)
              (array2 [[qc 1 2]]) (linear_basis (array2 [[qc 1 2]]) 1 1)
              1 3 1 2 2 1) as (maps & Hev & Hsh & Hget);
    try reflexivity.
  - discriminate.
  - valid_tac.
  - exists maps. split; [exact Hev|]. split; [exact Hsh|].
    rewrite Hget by lia. apply Qc_is_canon. vm_compute. reflexivity.
Defined.

(** X8: when the shape element has the linear basis, [eval] with
    [deriv = 0] is the affine map of each entity: the first vertex plus the
    edge vectors times the local coordinates, for entities of any
    topological dimension D in a space of any dimension Dn. *)
Theorem eval_affine (rm : ReferenceMap) (xi : ndarray Qc) (N Dn D nE nP : nat) :
  shape xi = [D; nP] ->
  D <> 0 /\ nP <> 0 ->
  shape (nodes (_mesh rm)) = [N; Dn] ->
  shape (get_entities (_mesh rm) D) = [nE; S D] ->
  (forall e b, e < nE -> b < S D ->
     (1 <= get (get_entities (_mesh rm) D) [e; b] <= Z.of_nat N)%Z) ->
  eval_basis (_shape_elem rm) xi 0 = Ok (linear_basis xi D nP) ->
  exists maps,
    eval rm xi 0 None = Ok maps
    /\ shape maps = [nE; nP; Dn]
    /\ forall e p d, e < nE -> p < nP -> d < Dn ->
       get maps [e; p; d] =
       Qcplus (element_vertex (_mesh rm) D e 0 d)
              (sumQc (map (fun j => Qcmult (edge_matrix (_mesh rm) D e d j)
                                           (get xi [j; p]))
                          (seq 0 D))).
Proof. exact (@eval_affine_closed_form rm xi N Dn D nE nP). Qed.

(** The edges of the mesh of two triangles, entities of dimension 1 in the
    plane, at the local point 1/2. *)
Lemma eval_affine_witness :
  exists maps,
    eval (ReferenceMap_init mesh_2d) (array2 [[qc 1 2]]) 0 None = Ok maps
    /\ shape maps = [5; 1; 2]
    /\ get maps [2; 0; 0] = qc 1 1
    /\ get maps [2; 0; 1] = qc 2 1.
Proof.
  destruct (@eval_affine (ReferenceMap_init mesh_2d) (array2 [[qc 1 2]])
              4 2 1 5 1) as (maps & Hev & Hsh & Hget); try reflexivity.
  - split; discriminate.
  - valid_tac.
  - exists maps. split; [exact Hev|]. split; [exact Hsh|].
    split; rewrite Hget by lia; apply Qc_is_canon; vm_compute; reflexivity.
Defined.

(** X9: when the shape element has the linear basis, [eval] with
    [deriv = 1] returns at every point the matrix of the edge vectors of
    the entity: column j is vertex j + 1 minus vertex 0. *)
Theorem eval_jacobian_edges (rm : ReferenceMap) (xi : ndarray Qc)
  (N Dn D nE nP : nat) :
  shape xi = [D; nP] ->
  D <> 0 /\ nP <> 0 ->
  shape (nodes (_mesh rm)) = [N; Dn] ->
  shape (get_entities (_mesh rm) D) = [nE; S D] ->
  (forall e b, e < nE -> b < S D ->
     (1 <= get (get_entities (_mesh rm) D) [e; b] <= Z.of_nat N)%Z) ->
  eval_basis (_shape_elem rm) xi 1 = Ok (linear_gradient D nP) ->
  exists jacs,
    eval rm xi 1 None = Ok jacs
    /\ shape jacs = [nE; nP; Dn; D]
    /\ forall e p i j, e < nE -> p < nP -> i < Dn -> j < D ->
       get jacs [e; p; i; j] = edge_matrix (_mesh rm) D e i j.
Proof. exact (@eval_jacobian_closed_form rm xi N Dn D nE nP). Qed.

Lemma eval_jacobian_edges_witness :
  exists jacs,
    eval (ReferenceMap_init mesh_2d) (array2 [[qc 1 2]; [qc 1 3]]) 1 None = Ok jacs
    /\ shape jacs = [2; 1; 2; 2]
    /\ forall e p i j, e < 2 -> p < 1 -> i < 2 -> j < 2 ->
       get jacs [e; p; i; j] = edge_matrix mesh_2d 2 e i j.
Proof.
  apply (@eval_jacobian_edges (ReferenceMap_init mesh_2d)
           (array2 [[qc 1 2]; [qc 1 3]]) 4 2 2 2 1); try reflexivity.
  - split; discriminate.
  - valid_tac.
Defined.

(** Both triangles of the mesh of two triangles have determinant 8. *)
Lemma jacobian_determinant_cells_witness :
  result_map to_Q
    (jacobian_determinant (fun x => x) (ReferenceMap_init mesh_2d)
       (array2 [[qc 1 2]; [qc 1 3]]) None)
  = Ok (mk_ndarray [2; 1] [8; 8]%Q).
Proof.
  rewrite (@jacobian_determinant_cells (fun x => x) (ReferenceMap_init mesh_2d)
             (array2 [[qc 1 2]; [qc 1 3]]) 4 2 2 1); try reflexivity.
  - right. now left.
  - discriminate.
  - valid_tac.
Defined.

Lemma jacobian_determinant_gram_witness :
  result_map to_Q
    (jacobian_determinant (fun x => x) (ReferenceMap_init mesh_2d)
       (array2 [[qc 1 2]]) None)
  = Ok (mk_ndarray [5; 1] [4; 16; 20; 16; 4]%Q).
Proof.
  rewrite (proj1 (@jacobian_determinant_gram (fun x => x)
             (ReferenceMap_init mesh_2d) (array2 [[qc 1 2]]) None
             (returned (eval (ReferenceMap_init mesh_2d)
                             (array2 [[qc 1 2]]) 1 None)) 5 1
             eq_refl) eq_refl).
  vm_compute. reflexivity.
Defined.

Lemma nonzero_dec (x : Qc) : is_zero x = false -> x <> 0%Qc.
Proof. intros E H. apply is_zero_spec in H. congruence. Qed.

Lemma jacobian_inverse_cells_witness :
  result_map to_Q
    (jacobian_inverse (ReferenceMap_init mesh_2d)
       (array2 [[qc 1 2]; [qc 1 3]]) None)
  = Ok (mk_ndarray [2; 1; 2; 2]
          [1 # 2; 0; 0; 1 # 4; 1 # 2; 1 # 4; -1 # 2; 0]%Q).
Proof.
  destruct (@jacobian_inverse_cells (ReferenceMap_init mesh_2d)
              (array2 [[qc 1 2]; [qc 1 3]]) 4 2 2 1) as [Hinv _];
    [ right; now left | reflexivity | discriminate | reflexivity | reflexivity
    | valid_tac | reflexivity | ].
  rewrite Hinv.
  - vm_compute. reflexivity.
  - intros [|[|e]] He; try lia; apply nonzero_dec; vm_compute; reflexivity.
Defined.

(** X13: on a mesh of dimension 2, with each host given by its row of
    vertex indices and no host degenerate, [eval_inverse] returns for each
    point the inverse of the matrix of the edge vectors of its host,
    applied to the point minus the first vertex of the host, in the shape
    2 x nP of the points. *)
Theorem eval_inverse_2d (rm : ReferenceMap) (points : ndarray Qc)
  (hosts : ndarray Z) (N nP : nat) :
  order (_shape_elem rm) = 1 ->
  dimension (_mesh rm) = 2 ->
  shape (nodes (_mesh rm)) = [N; 2] ->
  shape points = [2; nP] ->
  shape hosts = [nP; 3] ->
  (forall i k, i < nP -> k < 3 -> (1 <= get hosts [i; k] <= Z.of_nat N)%Z) ->
  (forall i, i < nP -> det 2 (host_matrix (_mesh rm) hosts i) <> 0%Qc) ->
  eval_inverse rm points hosts =
  Ok (tabulate [2; nP]
        (fun idx =>
           let j := nth 0 idx 0 in
           let i := nth 1 idx 0 in
           sumQc (map (fun k =>
                         Qcmult (inverse 2 (host_matrix (_mesh rm) hosts i) j k)
                                (Qcminus (get points [k; i])
                                         (host_vertex (_mesh rm) hosts i 0 k)))
                      (seq 0 2)))).
Proof. exact (@eval_inverse_2d_closed_form rm points hosts N nP). Qed.

(** The point (3/2, 3) in the second triangle of the mesh of two triangles
    has the local coordinates (1/2, 1/4). *)
Lemma eval_inverse_2d_witness :
  result_map to_Q
    (eval_inverse (ReferenceMap_init mesh_2d) (array2 [[qc 3 2]; [qc 3 1]])
       (array2 [[2; 4; 3]]%Z))
  = Ok (mk_ndarray [2; 1] [1 # 2; 1 # 4]%Q).
Proof.
  rewrite (@eval_inverse_2d (ReferenceMap_init mesh_2d)
             (array2 [[qc 3 2]; [qc 3 1]]) (array2 [[2; 4; 3]]%Z) 4 1);
    [ vm_compute; reflexivity | reflexivity | reflexivity | reflexivity
    | reflexivity | reflexivity | valid_tac | ].
  intros [|i] Hi; try lia. apply nonzero_dec. vm_compute. reflexivity.
Defined.

Lemma eval_inverse_2d_singular_witness :
  eval_inverse (ReferenceMap_init mesh_flat) (array2 [[qc 1 1]; [qc 1 1]])
    (array2 [[1; 2; 3]]%Z)
  = Raise (LinAlgError "Singular matrix").
Proof.
  apply (@eval_inverse_2d_singular (ReferenceMap_init mesh_flat)
           (array2 [[qc 1 1]; [qc 1 1]]) (array2 [[1; 2; 3]]%Z) 3 1 0);
    try reflexivity; try lia; valid_tac.
Defined.

Lemma eval_inverse_hosts_1d_array_witness :
  is_ok (eval_inverse (ReferenceMap_init mesh_2d)
           (array2 [[qc 1 1]; [qc 1 1]]) (array1 [1%Z])) = false.
Proof.
  apply (@eval_inverse_hosts_1d_array (ReferenceMap_init mesh_2d)
           (array2 [[qc 1 1]; [qc 1 1]]) (array1 [1%Z]) 1 4 2);
    reflexivity.
Defined.

(** X16: on a mesh of dimension 1 or 2 whose shape element has the linear
    basis, mapping back the local coordinates that [eval_inverse] returns
    gives the global points again: for points [x] with non-degenerate hosts
    at the positions [es], the value of [eval] at the preimages, on the
    host of point i and at point i, is [x] at i. *)
Theorem eval_after_eval_inverse (rm : ReferenceMap) (x : ndarray Qc)
  (es : list nat) (N D nE nP : nat) :
  D = 1 \/ D = 2 ->
  order (_shape_elem rm) = 1 ->
  dimension (_mesh rm) = D ->
  shape (nodes (_mesh rm)) = [N; D] ->
  shape (get_entities (_mesh rm) D) = [nE; S D] ->
  (forall e b, e < nE -> b < S D ->
     (1 <= get (get_entities (_mesh rm) D) [e; b] <= Z.of_nat N)%Z) ->
  shape x = [D; nP] -> nP <> 0 -> length es = nP ->
  (forall i, i < nP ->
     nth i es 0 < nE /\ det D (edge_matrix (_mesh rm) D (nth i es 0)) <> 0%Qc) ->
  (forall xi, shape xi = [D; nP] ->
     eval_basis (_shape_elem rm) xi 0 = Ok (linear_basis xi D nP)) ->
  exists xi maps,
    eval_inverse rm x (entity_hosts (_mesh rm) D es) = Ok xi
    /\ eval rm xi 0 None = Ok maps
    /\ forall i d, i < nP -> d < D -> get maps [nth i es 0; i; d] = get x [d; i].
Proof.
  intros [-> | ->].
  - apply forward_after_inverse_1d.
  - apply forward_after_inverse_2d.
Qed.

Lemma eval_after_eval_inverse_witness :
  exists xi maps,
    eval_inverse (ReferenceMap_init mesh_2d)
      (array2 [[qc 1 1; qc 1 2]; [qc 1 1; qc 1 1]])
      (entity_hosts mesh_2d 2 [1; 0]) = Ok xi
    /\ eval (ReferenceMap_init mesh_2d) xi 0 None = Ok maps
    /\ forall i d, i < 2 -> d < 2 ->
       get maps [nth i [1; 0] 0; i; d]
       = get (array2 [[qc 1 1; qc 1 2]; [qc 1 1; qc 1 1]]) [d; i].
Proof.
  apply (@eval_after_eval_inverse (ReferenceMap_init mesh_2d)
           (array2 [[qc 1 1; qc 1 2]; [qc 1 1; qc 1 1]]) [1; 0] 4 2 2 2);
    try reflexivity.
  - now right.
  - valid_tac.
  - discriminate.
  - intros [|[|i]] Hi; try lia; (split; [simpl; lia|]);
      apply nonzero_dec; vm_compute; reflexivity.
  - intros xi Hxi. apply P1_basis_values; [exact Hxi | simpl; lia].
Defined.

Lemma jacobian_empty_points_witness :
  jacobian_determinant (fun x => x) (ReferenceMap_init mesh_2d) (array1 []) None
  = Raise (NotImplementedError "Unsupported shape of jacobians! ((4, 1, 2))")
  /\ jacobian_inverse (ReferenceMap_init mesh_2d) (array1 []) None
     = Raise (NotImplementedError "Jacobian inverse not available yet!").
Proof.
  apply (proj2 (@jacobian_empty_points (fun x => x) (ReferenceMap_init mesh_2d)
                  (array1 []) None 4 2 eq_refl eq_refl)).
  lia.
Defined.
